(** * RadioScript builder: a shallow embedding of [radioscript/builder.py]

    The builder assembles an ordered list of audio segments into one
    programme file.  It owns the policy (which transition, how long, which
    fallback) and delegates all signal processing to external tools
    (ffmpeg, ffprobe, sox) run as subprocesses.

    Modelling choices.
    - Durations are Python floats in the source.  They are modelled as
      rationals [Q]: the builder only compares them, takes minima and halves
      them.  Not-a-number and infinite values are outside the model, and
      the decimal constants 0.05, 0.1, 0.3, 0.5 stand for themselves.
    - The file system is a finite map from paths to file contents; audio
      content is abstracted to its length in seconds.
    - An external tool is a function from its command line and the current
      file system to a completed process (exit status, captured text, and
      what it left at its output path).  All statements quantify over this
      function, so a tool may fail, or leave a partial file, at any call.
    - Python's [float()] and [json.loads] are library code and are taken as
      parameters of the model.
    - Paths are plain strings in the form [pathlib] prints them, on a POSIX
      system, and a file is identified by its path.  The builder's joins
      are modelled by [path_join]; [pathlib_join] models what [pathlib]
      itself does, and the two agree when the output directory is
      [plain_dir] and the joined name [plain_name] (lemma
      [path_join_pathlib]).  [os.path.abspath] in the concat list
      is not modelled.  Console output is not modelled: printing is taken
      to succeed.  The tools are taken to be installed: a missing
      executable, on which [subprocess.run] raises, is outside the model.
    - The functions of the builder are modelled on captured output that
      decodes.  The exits of the normalizer by [UnicodeDecodeError], on
      captured bytes that do not decode, are modelled by [_normalize_exc].
    - Of the caller, [RadioScript.cmd_build] in cli.py, the loop that
      collects the builder's segment list is modelled (module [Cli]). *)

From Stdlib Require Import QArith Qminmax Lqa ZArith Ascii String.
From stdpp Require Import gmap strings list fin_maps pretty.

Open Scope string_scope.
Open Scope Q_scope.

(** Let string concatenation compute on literal prefixes. *)
#[local] Arguments String.append !s1 s2 / : simpl nomatch.

(** ** Numbers *)

(** [x < y] on floats, as a boolean. *)
Definition Qltb (x y : Q) : bool :=
  match x ?= y with
  | Lt => true
  | _ => false
  end.

(** Python's two-argument [min(a, b)]: the first argument is kept unless the
    second is strictly smaller. *)
Definition py_min (a b : Q) : Q := if Qltb b a then b else a.

(** ** Data model *)

(** [AudioSegment] (builder.py, lines 14-19). *)
Record AudioSegment := {
  path : string;
  type : string;               (* "voice" or "music" *)
  crossfade : option Q;
}.

(** The attributes of a [Builder] instance (builder.py, lines 36-49). *)
Record Builder := {
  output_dir : string;
  crossfade_defaults : gmap string Q;
  normalization_lufs : Q;
  gap : option Q;               (* if set, silence gaps replace crossfades *)
  bitrate : string;
}.

(** The table installed when no policy is configured (lines 41-46). *)
Definition builtin_crossfade_defaults : gmap string Q :=
  list_to_map [ ("voice_to_music", 1 # 10); ("music_to_voice", 1 # 10);
                ("voice_to_voice", 1 # 10); ("music_to_music", 1 # 10) ].

(** [Builder.__init__]: [crossfade_defaults or {...}] replaces both [None]
    and the empty dict by the built-in table.  The loudness target is taken
    already parsed. *)
Definition Builder_init (dir : string) (defaults : option (gmap string Q))
    (lufs : Q) (g : option Q) (rate : string) : Builder :=
  {| output_dir := dir;
     crossfade_defaults :=
       match defaults with
       | Some d => if decide (d = ∅) then builtin_crossfade_defaults else d
       | None => builtin_crossfade_defaults
       end;
     normalization_lufs := lufs;
     gap := g;
     bitrate := rate |}.

(** ** Crossfade resolution (builder.py, lines 74-85) *)

(** [f"{prev_type}_to_{next_type}"]. *)
Definition crossfade_key (prev_type next_type : string) : string :=
  prev_type ++ "_to_" ++ next_type.

Definition fallback_crossfade : Q := 3 # 10.

Definition _get_crossfade_duration (b : Builder) (prev_type next_type : string)
    (override : option Q) : Q :=
  match override with
  | Some d => d
  | None =>
      default fallback_crossfade
        (crossfade_defaults b !! crossfade_key prev_type next_type)
  end.

(** ** Crossfade clamping (builder.py, lines 316-325) *)

(** Lines 319-320: the resolved duration clamped by half the shorter clip. *)
Definition clamp_xfade (xfade_duration prev_duration curr_duration : Q) : Q :=
  let max_xfade := py_min prev_duration curr_duration * (1 # 2) in
  py_min xfade_duration max_xfade.

Definition xfade_floor : Q := 5 # 100.

(** Lines 322-323: below the floor the duration is reset to zero. *)
Definition floor_xfade (xfade_duration : Q) : Q :=
  if Qltb xfade_duration xfade_floor then 0 else xfade_duration.

(** ** Text scanning (builder.py, lines 161-165) *)

(** Python's [str.rfind(c)] for a single character: the index of the last
    occurrence, or [-1]. *)
Fixpoint rfind (c : ascii) (s : string) : Z :=
  match s with
  | EmptyString => (-1)%Z
  | String a s' =>
      let r := rfind c s' in
      if (0 <=? r)%Z then (r + 1)%Z
      else if Ascii.eqb a c then 0%Z else (-1)%Z
  end.

(** Python's [str.find(c)]: the index of the first occurrence, or [-1]. *)
Fixpoint find (c : ascii) (s : string) : Z :=
  match s with
  | EmptyString => (-1)%Z
  | String a s' =>
      if Ascii.eqb a c then 0%Z
      else let r := find c s' in
           if (0 <=? r)%Z then (r + 1)%Z else (-1)%Z
  end.

(** The slice [s[start:stop]] for [0 <= start <= stop]; [substring] clips at
    the end of the text as Python does. *)
Definition py_slice (s : string) (start stop : Z) : string :=
  String.substring (Z.to_nat start) (Z.to_nat (stop - start)) s.

Definition lbrace : ascii := "{"%char.
Definition rbrace : ascii := "}"%char.

(** Lines 161-165: the text handed to [json.loads], or [None] when the
    guard of line 164 fails. *)
Definition extract_report (stderr_text : string) : option string :=
  let json_start := rfind lbrace stderr_text in
  let json_end := (rfind rbrace stderr_text + 1)%Z in
  if ((0 <=? json_start) && (json_start <? json_end))%Z
  then Some (py_slice stderr_text json_start json_end)
  else None.

(** The report as the specification words it: from the first opening brace
    to the last closing brace. *)
Definition spec_report (stderr_text : string) : option string :=
  let first_open := find lbrace stderr_text in
  let last_close := (rfind rbrace stderr_text + 1)%Z in
  if ((0 <=? first_open) && (first_open <? last_close))%Z
  then Some (py_slice stderr_text first_open last_close)
  else None.

(** [c] occurs in [s]. *)
Fixpoint occurs (c : ascii) (s : string) : bool :=
  match s with
  | EmptyString => false
  | String a s' => Ascii.eqb a c || occurs c s'
  end.

(** ** Paths and the temp-artifact naming convention *)

(** [str(self.output_dir / name)] where [pathlib] joins by plain
    concatenation: the directory is in the form [pathlib] prints it and is
    neither [.] nor a root, and the name is a relative path in printed
    form (see [pathlib_join], [plain_dir] and [plain_name] below). *)
Definition path_join (dir name : string) : string := dir ++ "/" ++ name.

(** Python's [str.endswith]. *)
Definition endswith (s suffix : string) : bool :=
  String.prefix (String.rev suffix) (String.rev s).

Definition slash : ascii := "/"%char.

(** *** What [pathlib] does when it joins and prints

    [PurePosixPath] keeps a root and a list of parts: empty components and
    [.] components are dropped, two leading slashes (exactly two) are kept
    as the root, the empty path prints as [.], and joining an absolute name
    replaces the directory. *)

(** The text between the slashes of [s]. *)
Fixpoint components (s : string) : list string :=
  match s with
  | EmptyString => [EmptyString]
  | String a s' =>
      if Ascii.eqb a slash then EmptyString :: components s'
      else match components s' with
           | c :: cs => String a c :: cs
           | [] => [String a EmptyString]
           end
  end.

(** A component [pathlib] keeps: neither empty nor [.]. *)
Definition kept_component (c : string) : bool :=
  negb (String.eqb c EmptyString) && negb (String.eqb c ".").

Definition parts (s : string) : list string :=
  List.filter kept_component (components s).

(** The root: one slash, or two when the path starts with exactly two. *)
Definition root (s : string) : string :=
  match s with
  | String a s1 =>
      if Ascii.eqb a slash then
        match s1 with
        | String b s2 =>
            if Ascii.eqb b slash then
              match s2 with
              | String c _ => if Ascii.eqb c slash then "/" else "//"
              | EmptyString => "//"
              end
            else "/"
        | EmptyString => "/"
        end
      else EmptyString
  | EmptyString => EmptyString
  end.

Fixpoint join_parts (ps : list string) : string :=
  match ps with
  | [] => EmptyString
  | [c] => c
  | c :: ps' => c ++ "/" ++ join_parts ps'
  end.

(** [str()] of a path with root [r] and parts [ps]. *)
Definition posix_str (r : string) (ps : list string) : string :=
  match r, ps with
  | EmptyString, [] => "."
  | _, _ => r ++ join_parts ps
  end.

(** [str(PurePosixPath(dir) / name)]. *)
Definition pathlib_join (dir name : string) : string :=
  match root name with
  | EmptyString => posix_str (root dir) (parts dir ++ parts name)
  | r => posix_str r (parts name)
  end.

(** A file name proper: no slash, and not empty, [.] or [..]. *)
Definition plain_name (name : string) : bool :=
  negb (occurs slash name) && kept_component name
  && negb (String.eqb name "..").

(** A directory as [pathlib] prints it, other than [.] and the roots:
    relative or absolute, every component non-empty and not [.]. *)
Definition plain_dir (dir : string) : bool :=
  let relative :=
    match dir with
    | String a rest => if Ascii.eqb a slash then rest else dir
    | EmptyString => dir
    end in
  forallb kept_component (components relative).

(** The shell pattern [_temp_*.wav] of line 378, on a file name. *)
Definition matches_temp_glob (name : string) : bool :=
  String.prefix "_temp_" name && endswith name ".wav"
  && (10 <=? String.length name)%nat && negb (occurs slash name).

(** [p] is an entry of directory [dir] whose name matches [_temp_*.wav]. *)
Definition is_temp_artifact (dir p : string) : bool :=
  String.prefix (dir ++ "/") p
  && matches_temp_glob
       (String.substring (String.length dir + 1)
          (String.length p - (String.length dir + 1)) p).

(** ** External tools and the world they act on *)

(** Audio is abstracted to its length in seconds; the only other file the
    builder writes is the input list of the concat demuxer. *)
Inductive content :=
| Audio (seconds : Q)
| ListFile (entries : list string).

(** The command lines the builder runs, with their variable parts. *)
Inductive Cmd :=
| Ffprobe (filepath : string)
| FfmpegConvert (input output : string)
| FfmpegCrossfade (file1 file2 : string) (duration : Q) (output : string)
| FfmpegConcat (list_file output : string)
| SoxSilence (silence_file : string) (length : Q)
| FfmpegAnalyze (input : string) (target_lufs : Q)
| FfmpegLoudnormMeasured (input : string) (target_lufs : Q)
    (measured_i measured_tp measured_lra measured_thresh offset : string)
    (output : string)
| FfmpegLoudnorm (input : string) (target_lufs : Q) (output : string)
| FfmpegMp3 (input bitrate output : string).

(** The path a command writes to, if any. *)
Definition cmd_output (c : Cmd) : option string :=
  match c with
  | Ffprobe _ | FfmpegAnalyze _ _ => None
  | FfmpegConvert _ o | FfmpegCrossfade _ _ _ o | FfmpegConcat _ o
  | SoxSilence o _ | FfmpegLoudnormMeasured _ _ _ _ _ _ _ o
  | FfmpegLoudnorm _ _ o | FfmpegMp3 _ _ o => Some o
  end.

(** What [subprocess.run] observes: the exit status, the captured streams,
    and what the process left at its output path ([None]: untouched). *)
Record Completed := {
  returncode_ok : bool;
  stdout : string;
  stderr : string;
  written : option content;
}.

(** What the builder hands to the outside: the commands it runs and the
    list files it writes for them. *)
Inductive Effect :=
| Run (c : Cmd)
| WriteList (p : string) (entries : list string).

Record World := {
  fs : gmap string content;
  log : list Effect;
}.

(** State passing over the world. *)
Definition M (A : Type) : Type := World -> A * World.

Definition ret {A} (a : A) : M A := fun w => (a, w).

Definition bind {A B} (m : M A) (k : A -> M B) : M B :=
  fun w => let (a, w') := m w in k a w'.

Notation "'let!' x ':=' c 'in' k" := (bind c (fun x => k))
  (at level 10, x name, c at level 100, k at level 200,
   format "'[v' 'let!'  x  ':='  c  'in' '/' k ']'").
Notation "'do!' c 'in' k" := (bind c (fun _ => k))
  (at level 10, c at level 100, k at level 200,
   format "'[v' 'do!'  c  'in' '/' k ']'").

(** How a call ends when an exception can leave it uncaught. *)
Inductive Outcome (A : Type) : Type :=
| Returns (a : A)
| Raises.                       (* [UnicodeDecodeError] propagates *)

Arguments Returns {A} a.
Arguments Raises {A}.

(** [Path(p).exists()]. *)
Definition path_exists (p : string) : M bool :=
  fun w => (bool_decide (is_Some (fs w !! p)), w).

(** [Path(p).unlink(missing_ok=True)]. *)
Definition unlink (p : string) : M unit :=
  fun w => (tt, {| fs := delete p (fs w); log := log w |}).

(** Lines 115-117: the list file is (over)written with one entry per file. *)
Definition write_list (p : string) (entries : list string) : M unit :=
  fun w => (tt, {| fs := <[p := ListFile entries]> (fs w);
                   log := log w ++ [WriteList p entries] |}).

(** Lines 378-379: every entry of the directory matching [_temp_*.wav] is
    removed. *)
Definition sweep_temp (dir : string) : M unit :=
  fun w =>
    (tt, {| fs := filter (fun kv => is_temp_artifact dir kv.1 = false) (fs w);
            log := log w |}).

(** ** Reference tools

    A well-behaved instance of the tool interface, used to run the builder
    on concrete programmes, and a way to inject faults into it. *)

Definition seconds_of (files : gmap string content) (p : string) : option Q :=
  match files !! p with
  | Some (Audio d) => Some d
  | _ => None
  end.

Fixpoint total_seconds (files : gmap string content) (entries : list string)
    : option Q :=
  match entries with
  | [] => Some 0
  | e :: entries' =>
      match seconds_of files e, total_seconds files entries' with
      | Some d, Some t => Some (d + t)
      | _, _ => None
      end
  end.

(** Seconds with six decimals, as ffprobe prints them (non-negative
    lengths). *)
Definition print_seconds (d : Q) : string :=
  let micro := (Qnum d * 1000000 / Zpos (Qden d))%Z in
  pretty (micro / 1000000)%Z ++ "."
  ++ String.substring 1 6 (pretty (1000000 + micro mod 1000000)%Z).

Definition digit_of (a : ascii) : option Z :=
  let n := nat_of_ascii a in
  if ((48 <=? n) && (n <=? 57))%nat then Some (Z.of_nat (n - 48)) else None.

(** Reads a run of decimal digits; returns the value, ten to the number of
    digits read, and the unread rest. *)
Fixpoint decimal_digits (s : string) (acc : Z) (scale : positive)
    : Z * positive * string :=
  match s with
  | EmptyString => (acc, scale, EmptyString)
  | String a s' =>
      match digit_of a with
      | Some d => decimal_digits s' (10 * acc + d)%Z (10 * scale)%positive
      | None => (acc, scale, s)
      end
  end.

(** [float()] on the unsigned decimals ffprobe prints; any other text is
    rejected. *)
Definition decimal_float (s : string) : option Q :=
  match decimal_digits s 0 1 with
  | (i, si, EmptyString) => if (si =? 1)%positive then None else Some (i # 1)
  | (i, si, String "."%char rest) =>
      match decimal_digits rest 0 1 with
      | (f, sf, EmptyString) =>
          if ((si =? 1) && (sf =? 1))%positive then None
          else Some (Qred ((i # 1) + (f # sf)))
      | _ => None
      end
  | _ => None
  end.

Definition succeed (out err : string) (x : option content) : Completed :=
  {| returncode_ok := true; stdout := out; stderr := err; written := x |}.

Definition fail_leaving (x : option content) : Completed :=
  {| returncode_ok := false; stdout := EmptyString; stderr := "error";
     written := x |}.

(** Success with nothing printed. *)
Definition succeed_quietly (x : option content) : Completed :=
  succeed EmptyString EmptyString x.

(** [s] between double quotes. *)
Definition quoted (s : string) : string :=
  let dq := String (ascii_of_nat 34) EmptyString in dq ++ s ++ dq.

(** The text of a loudnorm analysis: a log line that itself contains braces,
    then the report. *)
Definition report_text : string :=
  "{ " ++ quoted "input_i" ++ " : " ++ quoted "-23.5" ++ ", "
  ++ quoted "target_offset" ++ " : " ++ quoted "0.4" ++ " }".
Definition analysis_text : string :=
  "Input #0, wav, from 'show {take 2}.wav': [Parsed_loudnorm_0] "
  ++ report_text.

(** [json.loads] on the one report the reference analysis prints. *)
Definition report_loads (text : string) : option (gmap string string) :=
  if String.eqb text report_text
  then Some (list_to_map [("input_i", "-23.5"); ("target_offset", "0.4")])
  else None.

(** Transforms that copy, cut, join and blend lengths exactly. *)
Definition ideal_tool (c : Cmd) (files : gmap string content) : Completed :=
  let copy i :=
    match seconds_of files i with
    | Some d => succeed_quietly (Some (Audio d))
    | None => fail_leaving None
    end in
  match c with
  | Ffprobe p =>
      match seconds_of files p with
      | Some d => succeed (print_seconds d) EmptyString None
      | None => fail_leaving None
      end
  | FfmpegCrossfade f1 f2 d _ =>
      match seconds_of files f1, seconds_of files f2 with
      | Some d1, Some d2 => succeed_quietly (Some (Audio (d1 + d2 - d)))
      | _, _ => fail_leaving None
      end
  | FfmpegConcat l _ =>
      match files !! l with
      | Some (ListFile entries) =>
          match total_seconds files entries with
          | Some t => succeed_quietly (Some (Audio t))
          | None => fail_leaving None
          end
      | _ => fail_leaving None
      end
  | SoxSilence _ g => succeed_quietly (Some (Audio g))
  | FfmpegAnalyze i _ =>
      match seconds_of files i with
      | Some _ => succeed EmptyString analysis_text None
      | None => fail_leaving None
      end
  | FfmpegConvert i _ | FfmpegLoudnorm i _ _ | FfmpegMp3 i _ _
  | FfmpegLoudnormMeasured i _ _ _ _ _ _ _ => copy i
  end.

(** [with_fault bad t] behaves as [t] except on the commands [bad] picks. *)
Definition with_fault (bad : Cmd -> option Completed)
    (t : Cmd -> gmap string content -> Completed)
    : Cmd -> gmap string content -> Completed :=
  fun c files => match bad c with Some r => r | None => t c files end.

(** The programme of the module's own [test_builder]: a 3 s voice clip, a
    2 s music bed, a 3 s voice clip with a 1 s crossfade override. *)
Definition studio : World :=
  {| fs := list_to_map [ ("test1.wav", Audio 3); ("test2.wav", Audio 2);
                         ("test3.wav", Audio 3) ];
     log := [] |}.

Definition voice1 : AudioSegment :=
  {| path := "test1.wav"; type := "voice"; crossfade := None |}.
Definition music2 : AudioSegment :=
  {| path := "test2.wav"; type := "music"; crossfade := None |}.
Definition voice3 : AudioSegment :=
  {| path := "test3.wav"; type := "voice"; crossfade := Some 1 |}.

Definition programme : list AudioSegment := [voice1; music2; voice3].

(** The studio after the first and after the second probe of a merge. *)
Definition probed1 : World :=
  {| fs := fs studio; log := [Run (Ffprobe "test1.wav")] |}.
Definition probed2 : World :=
  {| fs := fs studio;
     log := [Run (Ffprobe "test1.wav"); Run (Ffprobe "test2.wav")] |}.

(** [Builder()] with the directory printed as [pathlib] prints it. *)
Definition default_builder : Builder :=
  Builder_init "output" None (-16) None "192k".

(** The same builder in silence-gap mode. *)
Definition gap_builder : Builder :=
  Builder_init "output" None (-16) (Some 1) "192k".

(** The crossfade into [_temp_1.wav], i.e. the second merge, fails. *)
Definition second_merge_fails (c : Cmd) : option Completed :=
  match c with
  | FfmpegCrossfade _ _ _ o =>
      if String.eqb o "output/_temp_1.wav" then Some (fail_leaving None)
      else None
  | _ => None
  end.



(** The analysis prints no report at all. *)
Definition analysis_prints_no_report (c : Cmd) : option Completed :=
  match c with
  | FfmpegAnalyze _ _ => Some (succeed EmptyString "Conversion failed!" None)
  | _ => None
  end.

(** Python's strict UTF-8 decoder accepts a byte string: every character is
    a well-formed sequence, with no overlong form, no surrogate and nothing
    above U+10FFFF.  [pending] lists the ranges the next continuation bytes
    must fall in. *)
Definition byte_range (lo hi : nat) : nat * nat := (lo, hi).

Fixpoint utf8_scan (pending : list (nat * nat)) (s : string) : bool :=
  match s with
  | EmptyString =>
      match pending with
      | [] => true
      | _ :: _ => false
      end
  | String a s' =>
      let n := nat_of_ascii a in
      match pending with
      | (lo, hi) :: pending' =>
          (Nat.leb lo n && Nat.leb n hi) && utf8_scan pending' s'
      | [] =>
          let tail := byte_range 128 191 in
          if Nat.ltb n 128 then utf8_scan [] s'
          else if Nat.leb 194 n && Nat.leb n 223 then utf8_scan [tail] s'
          else if Nat.eqb n 224
               then utf8_scan [byte_range 160 191; tail] s'
          else if Nat.eqb n 237
               then utf8_scan [byte_range 128 159; tail] s'
          else if Nat.leb 225 n && Nat.leb n 239
               then utf8_scan [tail; tail] s'
          else if Nat.eqb n 240
               then utf8_scan [byte_range 144 191; tail; tail] s'
          else if Nat.leb 241 n && Nat.leb n 243
               then utf8_scan [tail; tail; tail] s'
          else if Nat.eqb n 244
               then utf8_scan [byte_range 128 143; tail; tail] s'
          else false
      end
  end.

Definition utf8_valid (s : string) : bool := utf8_scan [] s.

(** What the analysis prints when the clip carries a Latin-1 name: the
    byte 0xE9 (e acute) is not UTF-8. *)
Definition latin1_text : string :=
  "caf" ++ String (ascii_of_nat 233)
             ".wav: Invalid data found when processing input".

(** The analysis fails on such a clip. *)
Definition analysis_prints_latin1 (c : Cmd) : option Completed :=
  match c with
  | FfmpegAnalyze _ _ =>
      Some {| returncode_ok := false; stdout := EmptyString;
              stderr := latin1_text; written := None |}
  | _ => None
  end.

(** The probe cannot read the second clip. *)
Definition probe_fails_on_music (c : Cmd) : option Completed :=
  match c with
  | Ffprobe p =>
      if String.eqb p "test2.wav" then Some (fail_leaving None) else None
  | _ => None
  end.

(** ** The caller: [RadioScript.cmd_build] (cli.py, lines 184-218)

    The loop that turns the parsed script into the builder's segment list.
    Joining a directory and a name is [pathlib]'s business and is taken as
    a parameter; the state of a segment holds what [_update_segment_state]
    and [_get_segment_state] store: a recorded flag and a file name. *)

Module Cli.

(** [parser.Segment], the fields the loop reads. *)
Record Segment := {
  id : Z;
  type : string;                (* "text" or "audio" *)
  content : string;             (* text content or audio path *)
  crossfade : option Q;
}.

(** One entry of [state["segments"]]. *)
Record SegState := {
  recorded : bool;
  filename : option string;
}.

(** [_get_segment_state] (cli.py, lines 63-71): a missing entry is created
    on the way. *)
Definition _get_segment_state (state : gmap string SegState) (segment_id : Z)
    : SegState * gmap string SegState :=
  let key := pretty segment_id in
  match state !! key with
  | Some st => (st, state)
  | None =>
      let st := {| recorded := false; filename := None |} in
      (st, <[key := st]> state)
  end.

(** Python's truth value of an optional string. *)
Definition truthy (s : option string) : bool :=
  match s with
  | Some (String _ _) => true
  | _ => false
  end.

(** The loop of lines 188-218: the segments to build, the ids of the
    missing recordings, and the state as the loop leaves it. *)
Fixpoint collect (pjoin : string -> string -> string)
    (script_dir recordings_dir : string) (w : World)
    (state : gmap string SegState) (segments : list Segment)
    : list AudioSegment * list Z * gmap string SegState :=
  match segments with
  | [] => ([], [], state)
  | segment :: segments' =>
      if String.eqb (type segment) "audio" then
        let audio_path := pjoin script_dir (content segment) in
        let '(audio_segments, missing, state') :=
          collect pjoin script_dir recordings_dir w state segments' in
        if bool_decide (is_Some (fs w !! audio_path))
        then (Build_AudioSegment audio_path "music" (crossfade segment)
                :: audio_segments, missing, state')
        else (audio_segments, missing, state')
      else if String.eqb (type segment) "text" then
        let (seg_state, state1) := _get_segment_state state (id segment) in
        let '(audio_segments, missing, state') :=
          collect pjoin script_dir recordings_dir w state1 segments' in
        if negb (recorded seg_state) || negb (truthy (filename seg_state))
        then (audio_segments, id segment :: missing, state')
        else
          let recording_path :=
            pjoin recordings_dir (default EmptyString (filename seg_state)) in
          if bool_decide (is_Some (fs w !! recording_path))
          then (Build_AudioSegment recording_path "voice" None
                  :: audio_segments, missing, state')
          else (audio_segments, id segment :: missing, state')
      else collect pjoin script_dir recordings_dir w state segments'
  end.

End Cli.

Section Model.

(** Python's [float(text.strip())]; [None] stands for [ValueError]. *)
Variable py_float : string -> option Q.

(** [json.loads] on an object whose values are printed back into the filter
    string; [None] stands for [json.JSONDecodeError]. *)
Variable json_loads : string -> option (gmap string string).

(** The behaviour of the external tools. *)
Variable tool : Cmd -> gmap string content -> Completed.

(** [subprocess.run(cmd, capture_output=True)]. *)
Definition subprocess_run (c : Cmd) : M Completed :=
  fun w =>
    let r := tool c (fs w) in
    (r, {| fs := match cmd_output c, written r with
                 | Some p, Some x => <[p := x]> (fs w)
                 | _, _ => fs w
                 end;
           log := log w ++ [Run c] |}).

(** [get_duration] (lines 59-72): a failing probe and unparsable output both
    give [0.0]; so does output that does not decode, [UnicodeDecodeError]
    being a [ValueError]. *)
Definition get_duration (filepath : string) : M Q :=
  let! result := subprocess_run (Ffprobe filepath) in
  if returncode_ok result
  then match py_float (stdout result) with
       | Some d => ret d
       | None => ret 0
       end
  else ret 0.

(** [_crossfade_two] (lines 87-109). *)
Definition _crossfade_two (file1 file2 : string) (duration : Q)
    (output : string) : M bool :=
  let! result := subprocess_run (FfmpegCrossfade file1 file2 duration output) in
  ret (returncode_ok result).

(** [_concat_simple] (lines 111-136); the [finally] clause removes the list
    file on both exits. *)
Definition _concat_simple (b : Builder) (files : list string)
    (output : string) : M bool :=
  let list_file := path_join (output_dir b) "_concat_list.txt" in
  do! write_list list_file files in
  let! result := subprocess_run (FfmpegConcat list_file output) in
  let! present := path_exists list_file in
  do! (if present then unlink list_file else ret tt) in
  ret (returncode_ok result).

(** [_normalize_single_pass] (lines 201-216). *)
Definition _normalize_single_pass (b : Builder) (input_file output_file : string)
    : M bool :=
  let! result := subprocess_run
              (FfmpegLoudnorm input_file (normalization_lufs b) output_file) in
  ret (returncode_ok result).

(** The correction pass of [_normalize] (lines 174-199). *)
Definition _normalize_second_pass (b : Builder)
    (loudnorm_data : gmap string string) (input_file output_file : string)
    : M bool :=
  let measured_i := default "-24" (loudnorm_data !! "input_i") in
  let measured_tp := default "-2" (loudnorm_data !! "input_tp") in
  let measured_lra := default "7" (loudnorm_data !! "input_lra") in
  let measured_thresh := default "-34" (loudnorm_data !! "input_thresh") in
  let offset := default "0" (loudnorm_data !! "target_offset") in
  let! result := subprocess_run
              (FfmpegLoudnormMeasured input_file (normalization_lufs b)
                 measured_i measured_tp measured_lra measured_thresh offset
                 output_file) in
  ret (returncode_ok result).

(** [_normalize] (lines 138-199).  The analyze pass is run without
    [check=True], so its exit status is never inspected: only its captured
    stderr decides between the two modes.  This is the function on captured
    output that decodes; [_normalize_exc] below adds the exits by
    [UnicodeDecodeError]. *)
Definition _normalize (b : Builder) (input_file output_file : string) : M bool :=
  let! result := subprocess_run (FfmpegAnalyze input_file (normalization_lufs b)) in
  match extract_report (stderr result) with
  | Some text =>
      match json_loads text with
      | Some loudnorm_data =>
          _normalize_second_pass b loudnorm_data input_file output_file
      | None => _normalize_single_pass b input_file output_file
      end
  | None => _normalize_single_pass b input_file output_file
  end.

(** [_export_mp3] (lines 218-233). *)
Definition _export_mp3 (input_file output_file rate : string) : M bool :=
  let! result := subprocess_run (FfmpegMp3 input_file rate output_file) in
  ret (returncode_ok result).

(** *** [build] (lines 235-388) *)

(** [f"_temp_{temp_counter}.wav"] and [f"_silence_{temp_counter}.wav"]. *)
Definition temp_name (n : nat) : string := "_temp_" ++ pretty n ++ ".wav".
Definition silence_name (n : nat) : string := "_silence_" ++ pretty n ++ ".wav".

(** Lines 289-307: the transition in silence-gap mode.  [temp_counter] has
    already been incremented when the silence file is named. *)
Definition gap_step (b : Builder) (g : Q) (current_file : string)
    (curr_seg : AudioSegment) (temp_counter : nat) (temp_output : string)
    : M bool :=
  let silence_file := path_join (output_dir b) (silence_name temp_counter) in
  let! _ := subprocess_run (SoxSilence silence_file g) in
  let! success :=
    _concat_simple b [current_file; silence_file; path curr_seg] temp_output in
  do! unlink silence_file in
  ret success.

(** Lines 309-337: the transition in crossfade mode. *)
Definition crossfade_step (b : Builder) (prev_seg curr_seg : AudioSegment)
    (current_file temp_output : string) : M bool :=
  let prev_type := type prev_seg in
  let curr_type := type curr_seg in
  let xfade_duration :=
    _get_crossfade_duration b prev_type curr_type (crossfade curr_seg) in
  let! prev_duration := get_duration current_file in
  let! curr_duration := get_duration (path curr_seg) in
  let xfade_duration := clamp_xfade xfade_duration prev_duration curr_duration in
  let xfade_duration := floor_xfade xfade_duration in
  if Qltb 0 xfade_duration
  then _crossfade_two current_file (path curr_seg) xfade_duration temp_output
  else _concat_simple b [current_file; path curr_seg] temp_output.

(** One iteration of the loop of line 282, up to the test of line 339. *)
Definition merge_step (b : Builder) (prev_seg curr_seg : AudioSegment)
    (current_file : string) (temp_counter : nat) : M bool :=
  let temp_output := path_join (output_dir b) (temp_name temp_counter) in
  let temp_counter := S temp_counter in
  match gap b with
  | Some g => gap_step b g current_file curr_seg temp_counter temp_output
  | None => crossfade_step b prev_seg curr_seg current_file temp_output
  end.

(** The loop of lines 282-348 over [segments[1:]]; [prev_seg] is
    [segments[i - 1]].  [None] is the early [return None] of line 341. *)
Fixpoint merge_loop (b : Builder) (prev_seg : AudioSegment)
    (rest : list AudioSegment) (current_file : string) (temp_counter : nat)
    : M (option string) :=
  match rest with
  | [] => ret (Some current_file)
  | curr_seg :: rest' =>
      let! success := merge_step b prev_seg curr_seg current_file temp_counter in
      if negb success then ret None
      else
        do! (if String.prefix (path_join (output_dir b) "_temp") current_file
             then unlink current_file else ret tt) in
        merge_loop b curr_seg rest'
          (path_join (output_dir b) (temp_name temp_counter)) (S temp_counter)
  end.

(** Lines 257-260: every segment file must exist. *)
Fixpoint all_exist (segments : list AudioSegment) : M bool :=
  match segments with
  | [] => ret true
  | seg :: segments' =>
      let! present := path_exists (path seg) in
      if present then all_exist segments' else ret false
  end.

(** Lines 264-350: one segment is converted, several are merged. *)
Definition merge_segments (b : Builder) (first : AudioSegment)
    (rest : list AudioSegment) : M (option string) :=
  match rest with
  | [] =>
      let temp_file := path_join (output_dir b) "_temp_single.wav" in
      let! _ := subprocess_run (FfmpegConvert (path first) temp_file) in
      ret (Some temp_file)
  | _ :: _ => merge_loop b first rest (path first) 0
  end.

(** Lines 352-361: the track that goes on to export. *)
Definition normalize_merged (b : Builder) (normalize : bool)
    (merged_file : string) : M string :=
  if normalize then
    let normalized_file := path_join (output_dir b) "_temp_normalized.wav" in
    let! done := _normalize b merged_file normalized_file in
    if negb done then ret merged_file
    else
      do! (if negb (String.eqb merged_file normalized_file)
           then unlink merged_file else ret tt) in
      ret normalized_file
  else ret merged_file.

(** Lines 363-374: the export proper.  The generic conversion is run
    unchecked and judged by whether the output file exists afterwards. *)
Definition export_track (b : Builder) (output_filename merged_file : string)
    : M bool :=
  let output_path := path_join (output_dir b) output_filename in
  if endswith output_filename ".mp3"
  then _export_mp3 merged_file output_path (bitrate b)
  else
    let! _ := subprocess_run (FfmpegConvert merged_file output_path) in
    path_exists output_path.

(** Lines 363-388: export, cleanup, result. *)
Definition export_and_cleanup (b : Builder) (output_filename merged_file : string)
    : M (option string) :=
  let output_path := path_join (output_dir b) output_filename in
  let! success := export_track b output_filename merged_file in
  do! unlink merged_file in
  do! sweep_temp (output_dir b) in
  if success then
    let! _ := get_duration output_path in
    ret (Some output_path)
  else ret None.

Definition build (b : Builder) (segments : list AudioSegment)
    (output_filename : string) (normalize : bool) : M (option string) :=
  match segments with
  | [] => ret None
  | first :: rest =>
      let! present := all_exist segments in
      if negb present then ret None
      else
        let! merged := merge_segments b first rest in
        match merged with
        | None => ret None
        | Some merged_file =>
            let! merged_file := normalize_merged b normalize merged_file in
            export_and_cleanup b output_filename merged_file
        end
  end.

(** ** Captured output that does not decode

    [subprocess.run(..., text=True)] (line 152) decodes both captured
    streams with the locale's codec, and the error handlers print
    [e.stderr.decode()] (lines 198 and 215), which decodes as UTF-8.  On
    bytes that do not decode, both raise [UnicodeDecodeError].  The
    handlers of the normalizer catch [CalledProcessError] and
    [JSONDecodeError] only, so the error leaves [_normalize].  The
    functions above are the builder on output that decodes; the ones below
    are the normalizer with these exits, the captured streams being byte
    strings. *)

(** Whether a byte string decodes with the locale's codec, and as UTF-8. *)
Variable locale_decodes : string -> bool.
Variable utf8_decodes : string -> bool.

(** [_normalize_single_pass] (lines 201-216) with the decoding of line
    215. *)
Definition _normalize_single_pass_exc (b : Builder)
    (input_file output_file : string) : M (Outcome bool) :=
  let! result := subprocess_run
              (FfmpegLoudnorm input_file (normalization_lufs b) output_file) in
  if returncode_ok result then ret (Returns true)
  else if utf8_decodes (stderr result) then ret (Returns false)
  else ret Raises.

(** The correction pass (lines 174-199) with the decoding of line 198. *)
Definition _normalize_second_pass_exc (b : Builder)
    (loudnorm_data : gmap string string) (input_file output_file : string)
    : M (Outcome bool) :=
  let measured_i := default "-24" (loudnorm_data !! "input_i") in
  let measured_tp := default "-2" (loudnorm_data !! "input_tp") in
  let measured_lra := default "7" (loudnorm_data !! "input_lra") in
  let measured_thresh := default "-34" (loudnorm_data !! "input_thresh") in
  let offset := default "0" (loudnorm_data !! "target_offset") in
  let! result := subprocess_run
              (FfmpegLoudnormMeasured input_file (normalization_lufs b)
                 measured_i measured_tp measured_lra measured_thresh offset
                 output_file) in
  if returncode_ok result then ret (Returns true)
  else if utf8_decodes (stderr result) then ret (Returns false)
  else ret Raises.

(** [_normalize] (lines 138-199) with the decoding of line 152: when a
    captured stream of the analysis does not decode, the call is left
    before anything is parsed and before any fallback. *)
Definition _normalize_exc (b : Builder) (input_file output_file : string)
    : M (Outcome bool) :=
  let! result := subprocess_run (FfmpegAnalyze input_file (normalization_lufs b)) in
  if locale_decodes (stdout result) && locale_decodes (stderr result) then
    match extract_report (stderr result) with
    | Some text =>
        match json_loads text with
        | Some loudnorm_data =>
            _normalize_second_pass_exc b loudnorm_data input_file output_file
        | None => _normalize_single_pass_exc b input_file output_file
        end
    | None => _normalize_single_pass_exc b input_file output_file
    end
  else ret Raises.

(** ** Reading the log *)

(** The blend windows of the crossfade commands recorded in a log. *)
Definition crossfades (l : list Effect) : list Q :=
  omap (fun e => match e with
                 | Run (FfmpegCrossfade _ _ d _) => Some d
                 | _ => None
                 end) l.

(** What was logged between world [w] and a later world [w']. *)
Definition new_effects (w w' : World) : list Effect :=
  drop (length (log w)) (log w').

(** The probe of [filepath] in world [w] gives no usable number: it exits
    with an error, or prints text [float()] rejects. *)
Definition probe_unusable (filepath : string) (w : World) : Prop :=
  let result := tool (Ffprobe filepath) (fs w) in
  returncode_ok result = false \/ py_float (stdout result) = None.


(** The analysis of [input_file] in world [w] yields no report: no braces
    in the right order, or text [json.loads] rejects. *)
Definition analysis_unparsable (b : Builder) (input_file : string) (w : World)
    : Prop :=
  let result := tool (FfmpegAnalyze input_file (normalization_lufs b)) (fs w) in
  match extract_report (stderr result) with
  | Some text => json_loads text = None
  | None => True
  end.

(** ** Paths the builder writes *)

(** The names the builder itself creates under the output directory. *)
Definition own_name (name : string) : bool :=
  String.prefix "_temp" name || String.prefix "_silence_" name
  || String.eqb name "_concat_list.txt".

(** Running [m] never creates a file at [p]. *)
Definition keeps_absent {A} (p : string) (m : M A) : Prop :=
  forall w, fs w !! p = None -> fs (snd (m w)) !! p = None.

(** ** Further vocabulary *)

(** Running [m] leaves whatever is at [p] as it was. *)
Definition keeps_file {A} (p : string) (m : M A) : Prop :=
  forall w, fs (snd (m w)) !! p = fs w !! p.

(** Running [m] only appends to the log, and only effects satisfying [P]. *)
Definition logs_only {A} (P : Effect -> Prop) (m : M A) : Prop :=
  forall w, exists l, log (snd (m w)) = (log w ++ l)%list /\ Forall P l.

(** [p] carries one of the builder's own names under [dir]. *)
Definition own_path (dir p : string) : Prop :=
  exists name, own_name name = true /\ p = path_join dir name.

(** What a build of [b] with the given [normalize] flag and output name is
    entitled to hand out. *)
Definition permitted (b : Builder) (normalize : bool) (output_filename : string)
    (e : Effect) : Prop :=
  let output_path := path_join (output_dir b) output_filename in
  let list_file := path_join (output_dir b) "_concat_list.txt" in
  match e with
  | Run (Ffprobe p) => gap b = None \/ p = output_path
  | Run (FfmpegCrossfade _ _ d _) => gap b = None /\ 5 # 100 <= d
  | Run (SoxSilence _ g) => gap b = Some g
  | Run (FfmpegConcat l _) => l = list_file
  | WriteList l _ => l = list_file
  | Run (FfmpegAnalyze _ t) => normalize = true /\ t = normalization_lufs b
  | Run (FfmpegLoudnorm _ t o)
  | Run (FfmpegLoudnormMeasured _ t _ _ _ _ _ o) =>
      normalize = true /\ t = normalization_lufs b
      /\ o = path_join (output_dir b) "_temp_normalized.wav"
  | Run (FfmpegMp3 _ rate o) =>
      endswith output_filename ".mp3" = true /\ rate = bitrate b
      /\ o = output_path
  | Run (FfmpegConvert _ o) =>
      o = path_join (output_dir b) "_temp_single.wav"
      \/ (endswith output_filename ".mp3" = false /\ o = output_path)
  end.


(** The state of a segment as the loop sees it: a missing entry reads as
    the entry [_get_segment_state] would create. *)
Definition status_of (state : gmap string Cli.SegState) (key : string)
    : Cli.SegState :=
  default {| Cli.recorded := false; Cli.filename := None |} (state !! key).

(** * Properties *)

(** ** Comparisons and minima *)

Lemma Qltb_lt (x y : Q) : Qltb x y = true <-> x < y.
Proof.
  unfold Qltb. rewrite Qlt_alt.
  destruct (x ?= y); split; intros H; try reflexivity; discriminate H.
Qed.

Lemma Qltb_ge (x y : Q) : Qltb x y = false <-> y <= x.
Proof.
  rewrite Qle_alt, <- Qcompare_antisym. unfold Qltb.
  destruct (x ?= y); cbn; split; intros H; try reflexivity;
    first [discriminate H | exfalso; apply H; reflexivity | discriminate].
Qed.

(** On rationals Python's [min] is the mathematical minimum. *)
Lemma py_min_Qmin (a b : Q) : py_min a b == Qmin a b.
Proof.
  unfold py_min. destruct (Qltb b a) eqn:E.
  - apply Qltb_lt in E. symmetry. apply Q.min_r. lra.
  - apply Qltb_ge in E. symmetry. apply Q.min_l. exact E.
Qed.

Lemma clamp_xfade_Qmin (desired d1 d2 : Q) :
  clamp_xfade desired d1 d2 == Qmin desired ((1 # 2) * Qmin d1 d2).
Proof.
  unfold clamp_xfade. rewrite py_min_Qmin.
  apply Q.min_compat; [reflexivity |].
  rewrite py_min_Qmin. ring.
Qed.

Lemma clamp_xfade_le_half (desired d1 d2 : Q) :
  clamp_xfade desired d1 d2 <= (1 # 2) * Qmin d1 d2.
Proof. rewrite clamp_xfade_Qmin. apply Q.le_min_r. Qed.

Lemma floor_xfade_below (x : Q) : x < xfade_floor -> floor_xfade x = 0.
Proof. intros H. unfold floor_xfade. apply Qltb_lt in H. rewrite H. reflexivity. Qed.

(** ** The crossfade resolver *)

(** C2: an override is returned unchanged (a zero override included);
    without one, a pair found in the policy gets its configured default and
    any other pair gets the 0.3 s fallback. *)
Theorem resolve_spec (b : Builder) (prev_type next_type : string) :
  (forall d, _get_crossfade_duration b prev_type next_type (Some d) = d)
  /\ (forall d,
        crossfade_defaults b !! crossfade_key prev_type next_type = Some d ->
        _get_crossfade_duration b prev_type next_type None = d)
  /\ (crossfade_defaults b !! crossfade_key prev_type next_type = None ->
      _get_crossfade_duration b prev_type next_type None = 3 # 10).
Proof.
  unfold _get_crossfade_duration. repeat split.
  - intros d H. rewrite H. reflexivity.
  - intros H. rewrite H. reflexivity.
Qed.

(** ** One merge step in crossfade mode *)

Lemma get_duration_world (p : string) (w : World) :
  snd (get_duration p w)
  = {| fs := fs w; log := (log w ++ [Run (Ffprobe p)])%list |}.
Proof.
  unfold get_duration, bind, subprocess_run; cbn.
  destruct (returncode_ok _); [destruct (py_float _) |]; reflexivity.
Qed.

Lemma get_duration_unusable (p : string) (w : World) :
  probe_unusable p w -> fst (get_duration p w) = 0.
Proof.
  unfold probe_unusable, get_duration, bind, subprocess_run; cbn.
  intros [H | H]; rewrite H; [reflexivity |].
  destruct (returncode_ok _); reflexivity.
Qed.

Lemma crossfade_two_run (file1 file2 : string) (d : Q) (output : string)
    (w : World) :
  log (snd (_crossfade_two file1 file2 d output w))
  = (log w ++ [Run (FfmpegCrossfade file1 file2 d output)])%list.
Proof. reflexivity. Qed.

Lemma concat_simple_run (b : Builder) (files : list string) (output : string)
    (w : World) :
  log (snd (_concat_simple b files output w))
  = (log w ++ [WriteList (path_join (output_dir b) "_concat_list.txt") files;
               Run (FfmpegConcat (path_join (output_dir b) "_concat_list.txt")
                      output)])%list.
Proof.
  unfold _concat_simple, bind, write_list, subprocess_run, path_exists; cbn.
  destruct (bool_decide _); cbn; rewrite <- app_assoc; reflexivity.
Qed.

(** The step once both lengths are measured: the floor decides between the
    two transforms. *)
Lemma crossfade_step_measured (b : Builder) (prev_seg curr_seg : AudioSegment)
    (current_file temp_output : string) (w w1 w2 : World) (d1 d2 : Q) :
  get_duration current_file w = (d1, w1) ->
  get_duration (path curr_seg) w1 = (d2, w2) ->
  let clamped :=
    clamp_xfade (_get_crossfade_duration b (type prev_seg) (type curr_seg)
                   (crossfade curr_seg)) d1 d2 in
  crossfade_step b prev_seg curr_seg current_file temp_output w
  = if Qltb clamped xfade_floor
    then _concat_simple b [current_file; path curr_seg] temp_output w2
    else _crossfade_two current_file (path curr_seg) clamped temp_output w2.
Proof.
  intros H1 H2 clamped. unfold crossfade_step, bind. rewrite H1, H2.
  fold clamped. unfold floor_xfade.
  destruct (Qltb clamped xfade_floor) eqn:E.
  - reflexivity.
  - assert (Hpos : Qltb 0 clamped = true).
    { apply Qltb_lt. apply Qltb_ge in E. unfold xfade_floor in E. lra. }
    rewrite Hpos. reflexivity.
Qed.

Lemma crossfades_app (l1 l2 : list Effect) :
  crossfades (l1 ++ l2) = (crossfades l1 ++ crossfades l2)%list.
Proof. apply omap_app. Qed.

Lemma new_effects_app (w w' : World) (l : list Effect) :
  log w' = (log w ++ l)%list -> new_effects w w' = l.
Proof. intros H. unfold new_effects. rewrite H. apply drop_app_length. Qed.

(** Everything the step hands to the outside, in order: the two probes,
    then either the list file and the concat, or the crossfade. *)
Lemma crossfade_step_log (b : Builder) (prev_seg curr_seg : AudioSegment)
    (current_file temp_output : string) (w w1 w2 : World) (d1 d2 : Q) :
  get_duration current_file w = (d1, w1) ->
  get_duration (path curr_seg) w1 = (d2, w2) ->
  let clamped :=
    clamp_xfade (_get_crossfade_duration b (type prev_seg) (type curr_seg)
                   (crossfade curr_seg)) d1 d2 in
  let list_file := path_join (output_dir b) "_concat_list.txt" in
  new_effects w
    (snd (crossfade_step b prev_seg curr_seg current_file temp_output w))
  = ([Run (Ffprobe current_file); Run (Ffprobe (path curr_seg))]
     ++ if Qltb clamped xfade_floor
        then [WriteList list_file [current_file; path curr_seg];
              Run (FfmpegConcat list_file temp_output)]
        else [Run (FfmpegCrossfade current_file (path curr_seg) clamped
                     temp_output)])%list.
Proof.
  intros H1 H2 clamped list_file. apply new_effects_app.
  rewrite (crossfade_step_measured b prev_seg curr_seg _ _ _ _ _ _ _ H1 H2).
  fold clamped.
  assert (Hw2 : log w2
                = (log w ++ [Run (Ffprobe current_file);
                             Run (Ffprobe (path curr_seg))])%list).
  { pose proof (get_duration_world current_file w) as E1.
    pose proof (get_duration_world (path curr_seg) w1) as E2.
    rewrite H1 in E1. rewrite H2 in E2. cbn in E1, E2. subst w1 w2. cbn.
    rewrite <- app_assoc. reflexivity. }
  destruct (Qltb clamped xfade_floor).
  - rewrite concat_simple_run, Hw2, <- app_assoc. reflexivity.
  - rewrite crossfade_two_run, Hw2, <- app_assoc. reflexivity.
Qed.


(** The two cases of the floor, for a step in crossfade mode. *)
Lemma merge_step_floor_cases (b : Builder) (prev_seg curr_seg : AudioSegment)
    (current_file : string) (temp_counter : nat) (w w1 w2 : World) (d1 d2 : Q) :
  gap b = None ->
  get_duration current_file w = (d1, w1) ->
  get_duration (path curr_seg) w1 = (d2, w2) ->
  let temp_output := path_join (output_dir b) (temp_name temp_counter) in
  let clamped :=
    clamp_xfade (_get_crossfade_duration b (type prev_seg) (type curr_seg)
                   (crossfade curr_seg)) d1 d2 in
  let step := merge_step b prev_seg curr_seg current_file temp_counter w in
  (clamped < xfade_floor ->
     step = _concat_simple b [current_file; path curr_seg] temp_output w2
     /\ crossfades (new_effects w (snd step)) = [])
  /\ (~ clamped < xfade_floor ->
        step = _crossfade_two current_file (path curr_seg) clamped temp_output w2
        /\ crossfades (new_effects w (snd step)) = [clamped]).
Proof.
  intros Hgap H1 H2 temp_output clamped step.
  assert (Hstep : step
            = if Qltb clamped xfade_floor
              then _concat_simple b [current_file; path curr_seg] temp_output w2
              else _crossfade_two current_file (path curr_seg) clamped
                     temp_output w2).
  { unfold step, merge_step. rewrite Hgap.
    apply (crossfade_step_measured b prev_seg curr_seg _ _ _ _ _ _ _ H1 H2). }
  assert (Hlog : crossfades (new_effects w (snd step))
                 = if Qltb clamped xfade_floor then [] else [clamped]).
  { unfold step, merge_step. rewrite Hgap.
    rewrite (crossfade_step_log b prev_seg curr_seg _ _ _ _ _ _ _ H1 H2).
    fold clamped. rewrite crossfades_app.
    destruct (Qltb clamped xfade_floor); reflexivity. }
  split; intros Hc.
  - assert (E : Qltb clamped xfade_floor = true) by (apply Qltb_lt; exact Hc).
    rewrite E in Hstep, Hlog. split; assumption.
  - assert (E : Qltb clamped xfade_floor = false).
    { destruct (Qltb clamped xfade_floor) eqn:E'; [| reflexivity].
      apply Qltb_lt in E'. contradiction. }
    rewrite E in Hstep, Hlog. split; assumption.
Qed.

(** What the step hands out in each case of the floor: the two probes, then
    the list file naming the two clips and the concat into the step's
    output, or the crossfade. *)
Lemma merge_step_floor_effects (b : Builder) (prev_seg curr_seg : AudioSegment)
    (current_file : string) (temp_counter : nat) (w w1 w2 : World) (d1 d2 : Q) :
  gap b = None ->
  get_duration current_file w = (d1, w1) ->
  get_duration (path curr_seg) w1 = (d2, w2) ->
  let temp_output := path_join (output_dir b) (temp_name temp_counter) in
  let list_file := path_join (output_dir b) "_concat_list.txt" in
  let clamped :=
    clamp_xfade (_get_crossfade_duration b (type prev_seg) (type curr_seg)
                   (crossfade curr_seg)) d1 d2 in
  let step := merge_step b prev_seg curr_seg current_file temp_counter w in
  (clamped < xfade_floor ->
     new_effects w (snd step)
     = [Run (Ffprobe current_file); Run (Ffprobe (path curr_seg));
        WriteList list_file [current_file; path curr_seg];
        Run (FfmpegConcat list_file temp_output)])
  /\ (~ clamped < xfade_floor ->
        new_effects w (snd step)
        = [Run (Ffprobe current_file); Run (Ffprobe (path curr_seg));
           Run (FfmpegCrossfade current_file (path curr_seg) clamped
                  temp_output)]).
Proof.
  intros Hgap H1 H2 temp_output list_file clamped step.
  assert (Hlog : new_effects w (snd step)
                 = ([Run (Ffprobe current_file); Run (Ffprobe (path curr_seg))]
                    ++ if Qltb clamped xfade_floor
                       then [WriteList list_file [current_file; path curr_seg];
                             Run (FfmpegConcat list_file temp_output)]
                       else [Run (FfmpegCrossfade current_file (path curr_seg)
                                    clamped temp_output)])%list).
  { unfold step, merge_step. rewrite Hgap.
    apply (crossfade_step_log b prev_seg curr_seg _ _ _ _ _ _ _ H1 H2). }
  split; intros Hc.
  - assert (E : Qltb clamped xfade_floor = true) by (apply Qltb_lt; exact Hc).
    rewrite E in Hlog. exact Hlog.
  - assert (E : Qltb clamped xfade_floor = false).
    { destruct (Qltb clamped xfade_floor) eqn:E'; [| reflexivity].
      apply Qltb_lt in E'. contradiction. }
    rewrite E in Hlog. exact Hlog.
Qed.

(** C3: in crossfade mode a clamped duration below 0.05 s is reset to zero
    and the step is the plain concatenation of the two files: after the two
    probes it writes the list file naming the current file and the next
    clip, runs the concat of that list into the step's output, and runs no
    crossfade.  Otherwise the step is the crossfade transform: after the
    two probes it runs the crossfade of the two files into the step's
    output with the clamped duration as its window, and nothing else. *)
Theorem crossfade_step_floor (b : Builder) (prev_seg curr_seg : AudioSegment)
    (current_file : string) (temp_counter : nat) (w w1 w2 : World) (d1 d2 : Q) :
  gap b = None ->
  get_duration current_file w = (d1, w1) ->
  get_duration (path curr_seg) w1 = (d2, w2) ->
  let temp_output := path_join (output_dir b) (temp_name temp_counter) in
  let list_file := path_join (output_dir b) "_concat_list.txt" in
  let clamped :=
    clamp_xfade (_get_crossfade_duration b (type prev_seg) (type curr_seg)
                   (crossfade curr_seg)) d1 d2 in
  let step := merge_step b prev_seg curr_seg current_file temp_counter w in
  (clamped < 5 # 100 ->
     floor_xfade clamped = 0
     /\ step = _concat_simple b [current_file; path curr_seg] temp_output w2
     /\ new_effects w (snd step)
        = [Run (Ffprobe current_file); Run (Ffprobe (path curr_seg));
           WriteList list_file [current_file; path curr_seg];
           Run (FfmpegConcat list_file temp_output)]
     /\ crossfades (new_effects w (snd step)) = [])
  /\ (~ clamped < 5 # 100 ->
        step = _crossfade_two current_file (path curr_seg) clamped temp_output w2
        /\ new_effects w (snd step)
           = [Run (Ffprobe current_file); Run (Ffprobe (path curr_seg));
              Run (FfmpegCrossfade current_file (path curr_seg) clamped
                     temp_output)]
        /\ crossfades (new_effects w (snd step)) = [clamped]).
Proof.
  intros Hgap H1 H2 temp_output list_file clamped step.
  destruct (merge_step_floor_cases b prev_seg curr_seg current_file
              temp_counter w w1 w2 d1 d2 Hgap H1 H2) as [Hbelow Habove].
  destruct (merge_step_floor_effects b prev_seg curr_seg current_file
              temp_counter w w1 w2 d1 d2 Hgap H1 H2) as [Ebelow Eabove].
  split; intros Hc.
  - destruct (Hbelow Hc) as [Hs Hx].
    repeat split;
      [apply floor_xfade_below; exact Hc | exact Hs | apply Ebelow; exact Hc
      | exact Hx].
  - destruct (Habove Hc) as [Hs Hx].
    repeat split; [exact Hs | apply Eabove; exact Hc | exact Hx].
Qed.

(** C10: a probe that fails, or whose output does not parse, measures 0;
    and in crossfade mode a step in which either length measures 0 is the
    plain concatenation of the two files: after the two probes it writes
    the list file naming the current file and the next clip, runs the
    concat of that list into the step's output, and runs no crossfade. *)
Theorem zero_length_degrades_to_concat :
  (forall p w, probe_unusable p w -> fst (get_duration p w) = 0)
  /\ (forall (b : Builder) (prev_seg curr_seg : AudioSegment)
        (current_file : string) (temp_counter : nat) (w w1 w2 : World)
        (d1 d2 : Q),
        gap b = None ->
        get_duration current_file w = (d1, w1) ->
        get_duration (path curr_seg) w1 = (d2, w2) ->
        d1 == 0 \/ d2 == 0 ->
        let temp_output := path_join (output_dir b) (temp_name temp_counter) in
        let list_file := path_join (output_dir b) "_concat_list.txt" in
        let step := merge_step b prev_seg curr_seg current_file temp_counter w in
        step = _concat_simple b [current_file; path curr_seg] temp_output w2
        /\ new_effects w (snd step)
           = [Run (Ffprobe current_file); Run (Ffprobe (path curr_seg));
              WriteList list_file [current_file; path curr_seg];
              Run (FfmpegConcat list_file temp_output)]
        /\ crossfades (new_effects w (snd step)) = []).
Proof.
  split; [exact get_duration_unusable |].
  intros b prev_seg curr_seg current_file temp_counter w w1 w2 d1 d2
    Hgap H1 H2 Hzero temp_output list_file step.
  destruct (merge_step_floor_cases b prev_seg curr_seg current_file
              temp_counter w w1 w2 d1 d2 Hgap H1 H2) as [Hbelow _].
  destruct (merge_step_floor_effects b prev_seg curr_seg current_file
              temp_counter w w1 w2 d1 d2 Hgap H1 H2) as [Ebelow _].
  assert (Hc : clamp_xfade
                 (_get_crossfade_duration b (type prev_seg) (type curr_seg)
                    (crossfade curr_seg)) d1 d2 < xfade_floor).
  { pose proof (clamp_xfade_le_half
                  (_get_crossfade_duration b (type prev_seg) (type curr_seg)
                     (crossfade curr_seg)) d1 d2) as Hle.
    pose proof (Q.le_min_l d1 d2) as Hm1. pose proof (Q.le_min_r d1 d2) as Hm2.
    unfold xfade_floor. destruct Hzero as [Hz | Hz]; lra. }
  destruct (Hbelow Hc) as [Hs Hx].
  repeat split; [exact Hs | apply Ebelow; exact Hc | exact Hx].
Qed.

(** ** One merge step in silence-gap mode *)



(** ** Normalization *)

(** On output that decodes: when the analysis text yields no report, the
    normalizer is the single-pass transform, run after the analysis with
    the target level as its only loudness parameter. *)
Lemma normalize_unparsable (b : Builder) (input_file output_file : string)
    (w : World) :
  analysis_unparsable b input_file w ->
  let analyze := FfmpegAnalyze input_file (normalization_lufs b) in
  _normalize b input_file output_file w
  = _normalize_single_pass b input_file output_file
      (snd (subprocess_run analyze w))
  /\ new_effects w (snd (_normalize b input_file output_file w))
     = [Run analyze;
        Run (FfmpegLoudnorm input_file (normalization_lufs b) output_file)].
Proof.
  intros H analyze. unfold analysis_unparsable in H. cbn zeta in H.
  assert (E : _normalize b input_file output_file w
              = _normalize_single_pass b input_file output_file
                  (snd (subprocess_run analyze w))).
  { unfold _normalize, bind. cbn.
    destruct (extract_report _) as [text |]; [rewrite H |]; reflexivity. }
  split; [exact E |].
  apply new_effects_app. rewrite E. cbn. rewrite <- app_assoc. reflexivity.
Qed.

(** On output that decodes throughout, the normalizer with the decoding
    exits never raises and is the normalizer above. *)
Lemma normalize_exc_decodable (b : Builder) (input_file output_file : string)
    (w : World) :
  (forall c files,
     locale_decodes (stdout (tool c files)) = true
     /\ locale_decodes (stderr (tool c files)) = true
     /\ utf8_decodes (stderr (tool c files)) = true) ->
  _normalize_exc b input_file output_file w
  = (Returns (fst (_normalize b input_file output_file w)),
     snd (_normalize b input_file output_file w)).
Proof.
  intros Hdec. unfold _normalize_exc, _normalize, bind, subprocess_run.
  cbn [cmd_output].
  destruct (Hdec (FfmpegAnalyze input_file (normalization_lufs b)) (fs w))
    as (-> & -> & _).
  cbn [andb].
  assert (Hs : forall w0,
            _normalize_single_pass_exc b input_file output_file w0
            = (Returns (fst (_normalize_single_pass b input_file output_file
                               w0)),
               snd (_normalize_single_pass b input_file output_file w0))).
  { intros w0.
    unfold _normalize_single_pass_exc, _normalize_single_pass, bind,
      subprocess_run, ret.
    destruct (Hdec (FfmpegLoudnorm input_file (normalization_lufs b)
                      output_file) (fs w0)) as (_ & _ & ->).
    destruct (returncode_ok _); reflexivity. }
  destruct (extract_report _) as [text |]; [| apply Hs].
  destruct (json_loads text) as [data |]; [| apply Hs].
  unfold _normalize_second_pass_exc, _normalize_second_pass, bind,
    subprocess_run, ret.
  match goal with
  | |- context [utf8_decodes (stderr (tool ?c ?f))] =>
      destruct (Hdec c f) as (_ & _ & ->)
  end.
  destruct (returncode_ok _); reflexivity.
Qed.

(** C7: the fallback misses one way the analysis output can fail to parse.
    When a captured stream of the analysis does not decode, the normalizer
    is left by the decoding error: it has run the analysis only, the
    single-pass transform is not run and nothing is written.  When the
    output decodes and yields no report (no braces in the right order, or
    text the parser rejects), the normalizer is the single-pass transform,
    run after the analysis with the target level as its only loudness
    parameter. *)
Theorem undecodable_analysis_raises (b : Builder)
    (input_file output_file : string) (w : World) :
  let analyze := FfmpegAnalyze input_file (normalization_lufs b) in
  let captured := tool analyze (fs w) in
  let decoded :=
    locale_decodes (stdout captured) && locale_decodes (stderr captured) in
  let r := _normalize_exc b input_file output_file w in
  (decoded = false ->
     fst r = Raises
     /\ new_effects w (snd r) = [Run analyze]
     /\ fs (snd r) = fs w)
  /\ (decoded = true ->
      analysis_unparsable b input_file w ->
      r = _normalize_single_pass_exc b input_file output_file
            (snd (subprocess_run analyze w))
      /\ new_effects w (snd r)
         = [Run analyze;
            Run (FfmpegLoudnorm input_file (normalization_lufs b)
                   output_file)]).
Proof.
  intros analyze captured decoded r.
  assert (Hr : r = if decoded
                   then match extract_report (stderr captured) with
                        | Some text =>
                            match json_loads text with
                            | Some loudnorm_data =>
                                _normalize_second_pass_exc b loudnorm_data
                                  input_file output_file
                                  (snd (subprocess_run analyze w))
                            | None =>
                                _normalize_single_pass_exc b input_file
                                  output_file (snd (subprocess_run analyze w))
                            end
                        | None =>
                            _normalize_single_pass_exc b input_file
                              output_file (snd (subprocess_run analyze w))
                        end
                   else (Raises, snd (subprocess_run analyze w))).
  { unfold r, _normalize_exc, bind. cbn [subprocess_run].
    fold analyze. fold captured. fold decoded.
    destruct decoded; [| reflexivity].
    destruct (extract_report _) as [text |]; [| reflexivity].
    destruct (json_loads text); reflexivity. }
  split.
  - intros Hd. rewrite Hd in Hr. rewrite Hr. cbn. repeat split.
    apply new_effects_app. reflexivity.
  - intros Hd Hu. rewrite Hd in Hr.
    unfold analysis_unparsable in Hu. cbn zeta in Hu.
    fold analyze in Hu. fold captured in Hu.
    assert (E : r = _normalize_single_pass_exc b input_file output_file
                      (snd (subprocess_run analyze w))).
    { rewrite Hr. destruct (extract_report _) as [text |];
        [rewrite Hu |]; reflexivity. }
    split; [exact E |]. rewrite E. apply new_effects_app.
    unfold _normalize_single_pass_exc, bind, subprocess_run, ret.
    cbn [cmd_output].
    destruct (returncode_ok _); [| destruct (utf8_decodes _)];
      cbn [snd log]; rewrite <- app_assoc; reflexivity.
Qed.


(** A build whose inputs exist and whose merge succeeded is the export of
    whatever track normalization hands on: normalization never aborts. *)
Lemma build_past_merge (b : Builder) (first : AudioSegment)
    (rest : list AudioSegment) (output_filename : string) (normalize : bool)
    (w w0 w1 w2 : World) (merged_file track : string) :
  all_exist (first :: rest) w = (true, w0) ->
  merge_segments b first rest w0 = (Some merged_file, w1) ->
  normalize_merged b normalize merged_file w1 = (track, w2) ->
  build b (first :: rest) output_filename normalize w
  = export_and_cleanup b output_filename track w2.
Proof.
  intros H0 H1 H2. unfold build, bind. rewrite H0. cbn [negb].
  rewrite H1, H2. reflexivity.
Qed.




(** ** Joining paths *)

Lemma append_assoc (s t u : string) : (s ++ t) ++ u = s ++ t ++ u.
Proof. induction s as [| a s IH]; cbn; [reflexivity | rewrite IH; reflexivity]. Qed.

Lemma components_cons (s : string) : exists c cs, components s = c :: cs.
Proof.
  induction s as [| a s (c & cs & IH)]; cbn [components].
  - eexists _, _. reflexivity.
  - destruct (Ascii.eqb a slash); [eexists _, _; reflexivity |].
    rewrite IH. eexists _, _. reflexivity.
Qed.

(** Splitting at the slashes and joining again gives the text back. *)
Lemma join_components (s : string) : join_parts (components s) = s.
Proof.
  induction s as [| a s IH]; [reflexivity |]. cbn [components].
  destruct (components_cons s) as (c & cs & E). rewrite E in IH |- *.
  destruct (Ascii.eqb a slash) eqn:Ea.
  - apply Ascii.eqb_eq in Ea. subst a.
    change (join_parts (EmptyString :: c :: cs))
      with (String slash (join_parts (c :: cs))).
    rewrite IH. reflexivity.
  - destruct cs as [| c' cs].
    + cbn in IH |- *. rewrite IH. reflexivity.
    + change (join_parts (String a c :: c' :: cs))
        with (String a (c ++ "/" ++ join_parts (c' :: cs))).
      change (join_parts (c :: c' :: cs))
        with (c ++ "/" ++ join_parts (c' :: cs)) in IH.
      rewrite IH. reflexivity.
Qed.

Lemma components_slash (s : string) :
  components (String slash s) = EmptyString :: components s.
Proof. cbn [components]. rewrite Ascii.eqb_refl. reflexivity. Qed.

Lemma components_no_slash (s : string) :
  occurs slash s = false -> components s = [s].
Proof.
  induction s as [| a s IH]; [reflexivity |]. cbn [occurs components].
  intros H. apply orb_false_iff in H. destruct H as [Ha Hs].
  rewrite Ha, (IH Hs). reflexivity.
Qed.

Lemma filter_kept (cs : list string) :
  forallb kept_component cs = true -> List.filter kept_component cs = cs.
Proof.
  induction cs as [| c cs IH]; [reflexivity |]. cbn [forallb List.filter].
  intros H. apply andb_true_iff in H. destruct H as [Hc Hcs].
  rewrite Hc, (IH Hcs). reflexivity.
Qed.

Lemma join_parts_snoc (c : string) (cs : list string) (name : string) :
  join_parts ((c :: cs) ++ [name]) = join_parts (c :: cs) ++ "/" ++ name.
Proof.
  revert c. induction cs as [| c' cs IH]; intros c; [reflexivity |].
  change (join_parts ((c :: c' :: cs) ++ [name]))
    with (c ++ "/" ++ join_parts ((c' :: cs) ++ [name])).
  change (join_parts (c :: c' :: cs))
    with (c ++ "/" ++ join_parts (c' :: cs)).
  rewrite IH, !append_assoc. reflexivity.
Qed.

(** On a plain directory and a plain name [pathlib] joins by plain
    concatenation: [path_join] is the string the code computes. *)
Lemma path_join_pathlib (dir name : string) :
  plain_dir dir = true -> plain_name name = true ->
  pathlib_join dir name = path_join dir name.
Proof.
  intros Hd Hn. unfold plain_name in Hn.
  apply andb_true_iff in Hn. destruct Hn as [Hn _].
  apply andb_true_iff in Hn. destruct Hn as [Hs Hk].
  apply negb_true_iff in Hs.
  assert (Hparts : parts name = [name]).
  { unfold parts. rewrite (components_no_slash name Hs).
    cbn [List.filter]. rewrite Hk. reflexivity. }
  assert (Hroot : root name = EmptyString).
  { destruct name as [| a n]; [reflexivity |]. cbn [occurs] in Hs.
    apply orb_false_iff in Hs. destruct Hs as [Ha _].
    cbn [root]. rewrite Ha. reflexivity. }
  unfold pathlib_join, path_join. rewrite Hroot, Hparts.
  unfold plain_dir in Hd. destruct dir as [| a rest]; [discriminate Hd |].
  destruct (Ascii.eqb a slash) eqn:Ea.
  - apply Ascii.eqb_eq in Ea. subst a.
    destruct rest as [| c rest]; [discriminate Hd |].
    destruct (Ascii.eqb c slash) eqn:Ec.
    { apply Ascii.eqb_eq in Ec. subst c. rewrite components_slash in Hd.
      discriminate Hd. }
    assert (Hr : root (String slash (String c rest)) = "/").
    { cbn [root]. rewrite Ascii.eqb_refl, Ec. reflexivity. }
    assert (Hp : parts (String slash (String c rest))
                 = components (String c rest)).
    { unfold parts. rewrite components_slash.
      change (List.filter kept_component
                (EmptyString :: components (String c rest)))
        with (List.filter kept_component (components (String c rest))).
      apply filter_kept. exact Hd. }
    rewrite Hr, Hp.
    destruct (components_cons (String c rest)) as (c0 & cs & E).
    pose proof (join_components (String c rest)) as Hj.
    rewrite E in Hj |- *.
    unfold posix_str. rewrite join_parts_snoc, Hj. reflexivity.
  - assert (Hr : root (String a rest) = EmptyString).
    { cbn [root]. rewrite Ea. reflexivity. }
    assert (Hp : parts (String a rest) = components (String a rest)).
    { unfold parts. apply filter_kept. exact Hd. }
    rewrite Hr, Hp.
    destruct (components_cons (String a rest)) as (c0 & cs & E).
    pose proof (join_components (String a rest)) as Hj.
    rewrite E in Hj |- *.
    assert (Hps : posix_str EmptyString ((c0 :: cs) ++ [name])
                  = join_parts ((c0 :: cs) ++ [name])) by reflexivity.
    rewrite Hps, join_parts_snoc, Hj. reflexivity.
Qed.

(** Outside that domain the two differ: in the directory [.] the code's
    path has no [./] in front, an absolute name replaces the directory, and
    a name written with [./] joins to the same path as the name itself. *)
Lemma pathlib_join_elsewhere :
  pathlib_join "." "_temp_0.wav" = "_temp_0.wav"
  /\ pathlib_join "output" "/tmp/out.wav" = "/tmp/out.wav"
  /\ pathlib_join "output" "./_temp_0.wav" = path_join "output" "_temp_0.wav".
Proof. repeat split. Qed.

(** ** What a build can leave at the output path *)

Lemma path_join_inj (dir x y : string) :
  path_join dir x = path_join dir y -> x = y.
Proof.
  unfold path_join. intros H. apply String.app_inj in H.
  cbn in H. injection H as H. exact H.
Qed.


Lemma own_temp_name (n : nat) : own_name (temp_name n) = true.
Proof. unfold own_name, temp_name. cbn. reflexivity. Qed.

Lemma own_silence_name (n : nat) : own_name (silence_name n) = true.
Proof.
  unfold own_name, silence_name. cbn.
  destruct (pretty n ++ ".wav"); reflexivity.
Qed.

Lemma keeps_absent_ret {A} (p : string) (a : A) : keeps_absent p (ret a).
Proof. intros w H. exact H. Qed.

Lemma keeps_absent_bind {A B} (p : string) (m : M A) (k : A -> M B) :
  keeps_absent p m -> (forall a, keeps_absent p (k a)) ->
  keeps_absent p (bind m k).
Proof.
  intros Hm Hk w H. unfold bind. specialize (Hm w H).
  destruct (m w) as [a w1]. apply Hk. exact Hm.
Qed.

Lemma keeps_absent_run (p : string) (c : Cmd) :
  cmd_output c <> Some p -> keeps_absent p (subprocess_run c).
Proof.
  intros Hc w H. unfold subprocess_run. cbn.
  destruct (cmd_output c) as [o |]; [| exact H].
  destruct (written _); [| exact H].
  rewrite lookup_insert_ne; [exact H | congruence].
Qed.

Lemma keeps_absent_unlink (p q : string) : keeps_absent p (unlink q).
Proof. intros w H. cbn. apply lookup_delete_None. right. exact H. Qed.

Lemma keeps_absent_sweep (p dir : string) : keeps_absent p (sweep_temp dir).
Proof. intros w H. cbn. apply map_lookup_filter_None_2. left. exact H. Qed.

Lemma keeps_absent_exists (p q : string) : keeps_absent p (path_exists q).
Proof. intros w H. exact H. Qed.

Lemma keeps_absent_write_list (p q : string) (entries : list string) :
  q <> p -> keeps_absent p (write_list q entries).
Proof. intros Hq w H. cbn. rewrite lookup_insert_ne; assumption. Qed.

Lemma keeps_absent_get_duration (p q : string) : keeps_absent p (get_duration q).
Proof. intros w H. rewrite get_duration_world. exact H. Qed.

(** Breaks a computation into its primitive steps. *)
Ltac absent_steps :=
  repeat match goal with
    | |- keeps_absent _ (ret _) => apply keeps_absent_ret
    | |- keeps_absent _ (unlink _) => apply keeps_absent_unlink
    | |- keeps_absent _ (sweep_temp _) => apply keeps_absent_sweep
    | |- keeps_absent _ (path_exists _) => apply keeps_absent_exists
    | |- keeps_absent _ (get_duration _) => apply keeps_absent_get_duration
    | |- keeps_absent _ (bind _ _) => apply keeps_absent_bind; [| intros ?]
    | |- keeps_absent _ (if ?c then _ else _) => destruct c
    | |- keeps_absent _ (match ?c with Some _ => _ | None => _ end) =>
        destruct c
    end.

Lemma keeps_absent_concat (b : Builder) (p : string) (files : list string)
    (output : string) :
  path_join (output_dir b) "_concat_list.txt" <> p -> output <> p ->
  keeps_absent p (_concat_simple b files output).
Proof.
  intros Hl Ho. unfold _concat_simple. absent_steps.
  - apply keeps_absent_write_list. exact Hl.
  - apply keeps_absent_run. cbn [cmd_output]. congruence.
Qed.

Section OutputPath.

Variable b : Builder.
Variable output_filename : string.
Hypothesis not_own : own_name output_filename = false.

Let output_path := path_join (output_dir b) output_filename.











End OutputPath.

(** ** What the final sweep removes *)

(** Every build that reaches export ends with no temp artifact left in the
    output directory, whether the export succeeded or not. *)
Lemma export_and_cleanup_sweeps (b : Builder) (output_filename track p : string)
    (w : World) :
  is_temp_artifact (output_dir b) p = true ->
  fs (snd (export_and_cleanup b output_filename track w)) !! p = None.
Proof.
  intros Hp. unfold export_and_cleanup, bind.
  destruct (export_track b output_filename track w) as [success w1].
  cbn [unlink sweep_temp]. destruct success.
  - match goal with |- context [get_duration ?q ?x] =>
      pose proof (get_duration_world q x) as Hd;
      destruct (get_duration q x) as [d w2]
    end.
    cbn in Hd. subst w2. cbn [snd fs].
    apply map_lookup_filter_None_2. right. intros x _ Hx. cbn in Hx. congruence.
  - cbn [snd fs].
    apply map_lookup_filter_None_2. right. intros x _ Hx. cbn in Hx. congruence.
Qed.

(** * Further properties of the builder *)

(** ** Input validation *)

Lemma all_exist_world (segments : list AudioSegment) (w : World) :
  snd (all_exist segments w) = w.
Proof.
  induction segments as [| seg segments IH]; cbn [all_exist]; [reflexivity |].
  unfold bind, path_exists. destruct (bool_decide _); [exact IH | reflexivity].
Qed.

Lemma all_exist_true (segments : list AudioSegment) (w : World) :
  fst (all_exist segments w) = true
  <-> forall seg, seg ∈ segments -> is_Some (fs w !! path seg).
Proof.
  induction segments as [| seg segments IH]; cbn [all_exist].
  - split; [intros _ seg H; inversion H | reflexivity].
  - unfold bind, path_exists. destruct (bool_decide _) eqn:E.
    + apply bool_decide_eq_true in E. rewrite IH. split.
      * intros H s Hs. apply elem_of_cons in Hs. destruct Hs as [-> | Hs];
          [exact E | apply H; exact Hs].
      * intros H s Hs. apply H. apply elem_of_cons. right. exact Hs.
    + apply bool_decide_eq_false in E. cbn. split; [discriminate |].
      intros H. exfalso. apply E. apply H. apply elem_of_cons. left. reflexivity.
Qed.

(** X1: an empty segment list, or a list naming a file that does not
    exist, makes [build] return [None] without running any command and
    without touching any file. *)
Theorem build_rejects_bad_input (b : Builder) (segments : list AudioSegment)
    (output_filename : string) (normalize : bool) (w : World) :
  segments = [] \/ (exists seg, seg ∈ segments /\ fs w !! path seg = None) ->
  build b segments output_filename normalize w = (None, w).
Proof.
  intros [-> | (seg & Hin & Hmiss)]; [reflexivity |].
  unfold build. destruct segments as [| first rest]; [reflexivity |].
  unfold bind.
  pose proof (all_exist_world (first :: rest) w) as Hw.
  pose proof (all_exist_true (first :: rest) w) as Ht.
  destruct (all_exist (first :: rest) w) as [present w0]. cbn [fst snd] in Hw, Ht.
  subst w0. destruct present; [| reflexivity].
  exfalso. destruct Ht as [Ht _]. specialize (Ht eq_refl seg Hin).
  rewrite Hmiss in Ht. destruct Ht as [x Hx]. discriminate Hx.
Qed.

(** ** Which files a build can touch *)

Lemma substring_all (s : string) : String.substring 0 (String.length s) s = s.
Proof. induction s as [| a s IH]; cbn; [| rewrite IH]; reflexivity. Qed.

Lemma prefix_split (x s : string) :
  String.prefix x s = true -> exists rest, s = x ++ rest.
Proof.
  revert s. induction x as [| a x IH]; intros s H.
  - exists s. reflexivity.
  - destruct s as [| c s]; [discriminate H |]. cbn in H.
    destruct (ascii_dec a c) as [-> |]; [| discriminate H].
    destruct (IH s H) as [rest ->]. exists rest. reflexivity.
Qed.

Lemma prefix_app_split (dir x s : string) :
  String.prefix (dir ++ x) s = true -> exists rest, s = dir ++ x ++ rest.
Proof.
  revert s. induction dir as [| a dir IH]; intros s H.
  - apply prefix_split. exact H.
  - destruct s as [| c s]; [discriminate H |]. cbn in H.
    destruct (ascii_dec a c) as [-> |]; [| discriminate H].
    destruct (IH s H) as [rest ->]. exists rest. reflexivity.
Qed.

Lemma substring_after_dir (dir rest : string) :
  String.substring (String.length dir + 1)
    (String.length (path_join dir rest) - (String.length dir + 1))
    (path_join dir rest) = rest.
Proof.
  unfold path_join. induction dir as [| a dir IH]; cbn.
  - rewrite Nat.sub_0_r. apply substring_all.
  - exact IH.
Qed.

(** Whatever the final sweep removes carries one of the builder's names. *)
Lemma temp_artifact_own (dir p : string) :
  is_temp_artifact dir p = true -> own_path dir p.
Proof.
  unfold is_temp_artifact. intros H. apply andb_true_iff in H.
  destruct H as [Hpre Hglob].
  destruct (prefix_app_split dir "/" p Hpre) as [rest ->].
  fold (path_join dir rest) in Hglob. rewrite substring_after_dir in Hglob.
  exists rest. split; [| reflexivity].
  unfold matches_temp_glob in Hglob.
  repeat (apply andb_true_iff in Hglob; destruct Hglob as [Hglob _]).
  unfold own_name.
  destruct (prefix_split _ _ Hglob) as [tail ->]. reflexivity.
Qed.

(** So does whatever the merge loop retires. *)
Lemma retired_own (dir current_file : string) :
  String.prefix (path_join dir "_temp") current_file = true ->
  own_path dir current_file.
Proof.
  intros H. destruct (prefix_app_split dir "/_temp" current_file H)
    as [rest ->].
  exists ("_temp" ++ rest). split; [| reflexivity].
  unfold own_name. cbn. destruct rest; reflexivity.
Qed.

Lemma keeps_file_ret {A} (p : string) (a : A) : keeps_file p (ret a).
Proof. intros w. reflexivity. Qed.

Lemma keeps_file_bind {A B} (p : string) (m : M A) (k : A -> M B) :
  keeps_file p m -> (forall a, keeps_file p (k a)) -> keeps_file p (bind m k).
Proof.
  intros Hm Hk w. unfold bind. specialize (Hm w).
  destruct (m w) as [a w1]. cbn [snd] in Hm. rewrite <- Hm. apply Hk.
Qed.

Lemma keeps_file_run (p : string) (c : Cmd) :
  cmd_output c <> Some p -> keeps_file p (subprocess_run c).
Proof.
  intros Hc w. unfold subprocess_run. cbn.
  destruct (cmd_output c) as [o |]; [| reflexivity].
  destruct (written _); [| reflexivity].
  apply lookup_insert_ne. congruence.
Qed.

Lemma keeps_file_unlink (p q : string) : q <> p -> keeps_file p (unlink q).
Proof. intros H w. cbn. apply lookup_delete_ne. exact H. Qed.

Lemma keeps_file_sweep (p dir : string) :
  ~ own_path dir p -> keeps_file p (sweep_temp dir).
Proof.
  intros H w. cbn. destruct (fs w !! p) as [x |] eqn:E.
  - apply map_lookup_filter_Some_2; [exact E |]. cbn.
    destruct (is_temp_artifact dir p) eqn:Et; [| reflexivity].
    exfalso. apply H. apply temp_artifact_own. exact Et.
  - apply map_lookup_filter_None_2. left. exact E.
Qed.

Lemma keeps_file_exists (p q : string) : keeps_file p (path_exists q).
Proof. intros w. reflexivity. Qed.

Lemma keeps_file_write_list (p q : string) (entries : list string) :
  q <> p -> keeps_file p (write_list q entries).
Proof. intros H w. cbn. apply lookup_insert_ne. exact H. Qed.

Lemma keeps_file_get_duration (p q : string) : keeps_file p (get_duration q).
Proof. intros w. rewrite get_duration_world. reflexivity. Qed.

Ltac file_steps :=
  repeat match goal with
    | |- keeps_file _ (ret _) => apply keeps_file_ret
    | |- keeps_file _ (path_exists _) => apply keeps_file_exists
    | |- keeps_file _ (get_duration _) => apply keeps_file_get_duration
    | |- keeps_file _ (bind _ _) => apply keeps_file_bind; [| intros ?]
    | |- keeps_file _ (if ?c then _ else _) => destruct c eqn:?
    | |- keeps_file _ (match ?c with Some _ => _ | None => _ end) =>
        destruct c
    end.

Section Frame.

Variable b : Builder.
Variable p : string.
Hypothesis foreign : ~ own_path (output_dir b) p.

Lemma foreign_apart (name : string) :
  own_name name = true -> path_join (output_dir b) name <> p.
Proof. intros H E. apply foreign. exists name. split; [exact H | congruence]. Qed.

Lemma foreign_output_apart (name : string) :
  own_name name = true -> Some (path_join (output_dir b) name) <> Some p.
Proof. intros H E. injection E as E. exact (foreign_apart name H E). Qed.

Lemma keeps_file_concat (files : list string) (name : string) :
  own_name name = true ->
  keeps_file p (_concat_simple b files (path_join (output_dir b) name)).
Proof.
  intros Hn.
  assert (Hl : path_join (output_dir b) "_concat_list.txt" <> p)
    by (apply foreign_apart; reflexivity).
  unfold _concat_simple. file_steps.
  - apply keeps_file_write_list. exact Hl.
  - apply keeps_file_run. cbn [cmd_output]. apply foreign_output_apart.
    exact Hn.
  - apply keeps_file_unlink. exact Hl.
Qed.

Lemma keeps_file_merge_step (prev_seg curr_seg : AudioSegment)
    (current_file : string) (temp_counter : nat) :
  keeps_file p (merge_step b prev_seg curr_seg current_file temp_counter).
Proof.
  unfold merge_step. destruct (gap b) as [g |].
  - unfold gap_step. file_steps.
    + apply keeps_file_run. cbn [cmd_output]. apply foreign_output_apart.
      apply own_silence_name.
    + apply keeps_file_concat. apply own_temp_name.
    + apply keeps_file_unlink. apply foreign_apart. apply own_silence_name.
  - unfold crossfade_step. file_steps.
    + unfold _crossfade_two. file_steps.
      apply keeps_file_run. cbn [cmd_output]. apply foreign_output_apart.
      apply own_temp_name.
    + apply keeps_file_concat. apply own_temp_name.
Qed.

Lemma keeps_file_merge_loop (rest : list AudioSegment)
    (prev_seg : AudioSegment) (current_file : string) (temp_counter : nat) :
  keeps_file p (merge_loop b prev_seg rest current_file temp_counter).
Proof.
  revert prev_seg current_file temp_counter.
  induction rest as [| curr_seg rest IH]; intros prev_seg current_file n;
    cbn [merge_loop].
  - apply keeps_file_ret.
  - apply keeps_file_bind; [apply keeps_file_merge_step |].
    intros success. destruct success; cbn [negb]; [| apply keeps_file_ret].
    apply keeps_file_bind; [| intros _; apply IH].
    destruct (String.prefix _ current_file) eqn:E; [| apply keeps_file_ret].
    apply keeps_file_unlink. intros ->. apply foreign.
    apply retired_own. exact E.
Qed.

(** The merged track, when there is one, carries one of the builder's
    names. *)
Lemma merge_loop_own (rest : list AudioSegment) (prev_seg : AudioSegment)
    (current_file : string) (temp_counter : nat) (w w' : World)
    (merged_file : string) :
  merge_loop b prev_seg rest current_file temp_counter w
  = (Some merged_file, w') ->
  merged_file = current_file \/ own_path (output_dir b) merged_file.
Proof.
  revert prev_seg current_file temp_counter w.
  induction rest as [| curr_seg rest IH]; intros prev_seg current_file n w;
    cbn [merge_loop].
  - intros H. injection H as <- _. left. reflexivity.
  - unfold bind. destruct (merge_step _ _ _ _ _ w) as [success w1].
    destruct success; cbn [negb]; [| discriminate].
    destruct (if String.prefix _ current_file then _ else _) as [u w2].
    intros H. apply IH in H. right. destruct H as [-> | H]; [| exact H].
    exists (temp_name n). split; [apply own_temp_name | reflexivity].
Qed.

Lemma merge_segments_own (first : AudioSegment) (rest : list AudioSegment)
    (w w' : World) (merged_file : string) :
  merge_segments b first rest w = (Some merged_file, w') ->
  own_path (output_dir b) merged_file.
Proof.
  unfold merge_segments. destruct rest as [| second rest].
  - unfold bind. cbn. intros H. injection H as <- _.
    exists "_temp_single.wav". split; reflexivity.
  - cbn [merge_loop]. unfold bind.
    destruct (merge_step _ _ _ _ _ w) as [success w1].
    destruct success; cbn [negb]; [| discriminate].
    destruct (if String.prefix _ (path first) then _ else _) as [u w2].
    intros H. apply merge_loop_own in H. destruct H as [-> | H]; [| exact H].
    exists (temp_name 0). split; [apply own_temp_name | reflexivity].
Qed.

Lemma keeps_file_merge_segments (first : AudioSegment)
    (rest : list AudioSegment) :
  keeps_file p (merge_segments b first rest).
Proof.
  unfold merge_segments. destruct rest as [| second rest].
  - file_steps. apply keeps_file_run. cbn [cmd_output].
    apply foreign_output_apart. reflexivity.
  - apply keeps_file_merge_loop.
Qed.

Lemma keeps_file_normalize (input_file : string) :
  keeps_file p
    (_normalize b input_file
       (path_join (output_dir b) "_temp_normalized.wav")).
Proof.
  unfold _normalize. apply keeps_file_bind.
  - apply keeps_file_run. cbn [cmd_output]. discriminate.
  - intros result.
    assert (Hs : keeps_file p
                   (_normalize_single_pass b input_file
                      (path_join (output_dir b) "_temp_normalized.wav"))).
    { unfold _normalize_single_pass. file_steps.
      apply keeps_file_run. cbn [cmd_output]. apply foreign_output_apart.
      reflexivity. }
    destruct (extract_report _) as [text |]; [| exact Hs].
    destruct (json_loads text) as [data |]; [| exact Hs].
    unfold _normalize_second_pass. file_steps.
    apply keeps_file_run. cbn [cmd_output]. apply foreign_output_apart.
    reflexivity.
Qed.

(** The track handed on by normalization carries one of the builder's
    names if the merged track does. *)
Lemma normalize_merged_own (normalize : bool) (merged_file track : string)
    (w w' : World) :
  own_path (output_dir b) merged_file ->
  normalize_merged b normalize merged_file w = (track, w') ->
  own_path (output_dir b) track.
Proof.
  intros Hm. unfold normalize_merged. destruct normalize.
  - unfold bind. destruct (_normalize _ _ _ w) as [ok w1].
    destruct ok; cbn [negb].
    + destruct (if negb _ then _ else _) as [u w2]. intros H.
      injection H as <- _. exists "_temp_normalized.wav". split; reflexivity.
    + intros H. injection H as <- _. exact Hm.
  - intros H. injection H as <- _. exact Hm.
Qed.

Lemma keeps_file_normalize_merged (normalize : bool) (merged_file : string) :
  own_path (output_dir b) merged_file ->
  keeps_file p (normalize_merged b normalize merged_file).
Proof.
  intros Hm. unfold normalize_merged. destruct normalize;
    [| apply keeps_file_ret].
  apply keeps_file_bind; [apply keeps_file_normalize |].
  intros ok. file_steps.
  apply keeps_file_unlink. intros ->. exact (foreign Hm).
Qed.

Lemma keeps_file_export (output_filename track : string) :
  p <> path_join (output_dir b) output_filename ->
  own_path (output_dir b) track ->
  keeps_file p (export_and_cleanup b output_filename track).
Proof.
  intros Hout Ht. unfold export_and_cleanup. apply keeps_file_bind.
  - unfold export_track. destruct (endswith output_filename ".mp3").
    + unfold _export_mp3. file_steps. apply keeps_file_run. cbn [cmd_output].
      congruence.
    + file_steps. apply keeps_file_run. cbn [cmd_output]. congruence.
  - intros success. apply keeps_file_bind.
    + apply keeps_file_unlink. intros ->. exact (foreign Ht).
    + intros _. apply keeps_file_bind; [apply keeps_file_sweep; exact foreign |].
      intros _. file_steps.
Qed.

(** X2: for an output directory and an output name that [pathlib] joins
    by plain concatenation (the directory in printed form, neither [.] nor
    a root; the name a file name proper), the only paths at which a build
    writes or removes anything are those carrying its own names
    ([_temp...], [_silence_...], [_concat_list.txt] under the output
    directory) and the output path: whatever the tools do and whether the
    build succeeds or fails, what is at any other path, the input clips
    included, is neither overwritten nor removed. *)
Theorem build_touches_own_paths_only (segments : list AudioSegment)
    (output_filename : string) (normalize : bool) (w : World) :
  plain_dir (output_dir b) = true ->
  plain_name output_filename = true ->
  p <> pathlib_join (output_dir b) output_filename ->
  fs (snd (build b segments output_filename normalize w)) !! p = fs w !! p.
Proof.
  intros Hdir Hname Hout. rewrite (path_join_pathlib _ _ Hdir Hname) in Hout.
  unfold build. destruct segments as [| first rest];
    [reflexivity |].
  unfold bind.
  pose proof (all_exist_world (first :: rest) w) as Hw.
  destruct (all_exist (first :: rest) w) as [present w0]. cbn [snd] in Hw.
  subst w0. destruct present; cbn [negb]; [| reflexivity].
  pose proof (keeps_file_merge_segments first rest w) as H1.
  destruct (merge_segments b first rest w) as [[merged_file |] w1] eqn:Em;
    cbn [snd] in H1; [| exact H1].
  apply merge_segments_own in Em.
  pose proof (keeps_file_normalize_merged normalize merged_file Em w1) as H2.
  destruct (normalize_merged b normalize merged_file w1) as [track w2] eqn:En.
  cbn [snd] in H2. apply (normalize_merged_own _ _ _ _ _ Em) in En.
  rewrite (keeps_file_export output_filename track Hout En w2).
  congruence.
Qed.

End Frame.

(** ** What a successful build leaves behind *)

Lemma export_and_cleanup_result (b : Builder) (output_filename track r : string)
    (w w' : World) :
  export_and_cleanup b output_filename track w = (Some r, w') ->
  r = path_join (output_dir b) output_filename
  /\ exists w1, export_track b output_filename track w = (true, w1).
Proof.
  unfold export_and_cleanup, bind.
  destruct (export_track b output_filename track w) as [success w1].
  cbn [unlink sweep_temp]. destruct success; [| discriminate].
  destruct (get_duration _ _) as [d w2]. intros H. injection H as <- _.
  split; [reflexivity | exists w1; reflexivity].
Qed.

(** A build that returns a path went through export. *)
Lemma build_success_exported (b : Builder) (segments : list AudioSegment)
    (output_filename : string) (normalize : bool) (w w' : World) (r : string) :
  build b segments output_filename normalize w = (Some r, w') ->
  exists track w2,
    own_path (output_dir b) track
    /\ export_and_cleanup b output_filename track w2 = (Some r, w').
Proof.
  unfold build. destruct segments as [| first rest]; [discriminate |].
  unfold bind. destruct (all_exist (first :: rest) w) as [present w0].
  destruct present; cbn [negb]; [| discriminate].
  destruct (merge_segments b first rest w0) as [[merged_file |] w1] eqn:Em;
    [| discriminate].
  apply merge_segments_own in Em.
  destruct (normalize_merged b normalize merged_file w1) as [track w2] eqn:En.
  apply (normalize_merged_own _ _ _ _ _ _ Em) in En.
  intros H. exists track, w2. split; assumption.
Qed.

(** X3: for an output directory and an output name that [pathlib] joins
    by plain concatenation (the directory in printed form, neither [.] nor
    a root; the name a file name proper), when [build] returns a path it
    is the output path, directory and name joined by a slash, and no file
    matching [_temp_*.wav] is left in the output directory, leftovers of
    earlier runs included. *)
Theorem build_success_clean (b : Builder) (segments : list AudioSegment)
    (output_filename : string) (normalize : bool) (w w' : World) (r : string) :
  plain_dir (output_dir b) = true ->
  plain_name output_filename = true ->
  build b segments output_filename normalize w = (Some r, w') ->
  r = pathlib_join (output_dir b) output_filename
  /\ forall q, is_temp_artifact (output_dir b) q = true -> fs w' !! q = None.
Proof.
  intros Hdir Hname H. rewrite (path_join_pathlib _ _ Hdir Hname).
  destruct (build_success_exported _ _ _ _ _ _ _ H)
    as (track & w2 & _ & He).
  split.
  - apply (export_and_cleanup_result _ _ _ _ _ _ He).
  - intros q Hq.
    pose proof (export_and_cleanup_sweeps b output_filename track q w2 Hq)
      as Hs.
    rewrite He in Hs. exact Hs.
Qed.

(** X4: for an output directory and an output name that [pathlib] joins
    by plain concatenation (the directory in printed form, neither [.] nor
    a root; the name a file name proper), when a build with a generic
    (non-mp3) output name that is not one of the builder's own names
    returns a path, a file exists at that path at the end of the build. *)
Theorem generic_build_success_has_output (b : Builder)
    (segments : list AudioSegment) (output_filename : string)
    (normalize : bool) (w w' : World) (r : string) :
  plain_dir (output_dir b) = true ->
  plain_name output_filename = true ->
  own_name output_filename = false ->
  endswith output_filename ".mp3" = false ->
  build b segments output_filename normalize w = (Some r, w') ->
  is_Some (fs w' !! r).
Proof.
  intros _ _ Hown Hmp3 H.
  destruct (build_success_exported _ _ _ _ _ _ _ H)
    as (track & w2 & Ht & He).
  destruct (export_and_cleanup_result _ _ _ _ _ _ He) as [-> _].
  set (output_path := path_join (output_dir b) output_filename) in *.
  assert (Hforeign : ~ own_path (output_dir b) output_path).
  { intros (name & Hn & E). apply path_join_inj in E. congruence. }
  revert He. unfold export_and_cleanup, bind. fold output_path.
  destruct (export_track b output_filename track w2) as [success w3] eqn:Ex.
  unfold export_track in Ex. rewrite Hmp3 in Ex. fold output_path in Ex.
  unfold bind, path_exists in Ex.
  destruct (subprocess_run _ w2) as [result w4]. injection Ex as Hs ->.
  destruct success; [| cbn; discriminate].
  apply bool_decide_eq_true in Hs.
  pose proof (keeps_file_unlink output_path track) as Hu.
  pose proof (keeps_file_sweep output_path (output_dir b) Hforeign) as Hsw.
  destruct (unlink track w3) as [u w5] eqn:Eu.
  destruct (sweep_temp (output_dir b) w5) as [u' w6] eqn:Es.
  pose proof (get_duration_world output_path w6) as Hd.
  destruct (get_duration output_path w6) as [d w7]. cbn [snd] in Hd.
  intros E. injection E as <-. subst w7. cbn [fs].
  assert (Hne : track <> output_path).
  { intros ->. exact (Hforeign Ht). }
  specialize (Hu Hne w3). rewrite Eu in Hu. cbn [snd] in Hu.
  specialize (Hsw w5). rewrite Es in Hsw. cbn [snd] in Hsw.
  rewrite Hsw, Hu. exact Hs.
Qed.

(** ** More on the crossfade step *)

Lemma py_min_left (a b : Q) : a <= b -> py_min a b = a.
Proof.
  intros H. unfold py_min. destruct (Qltb b a) eqn:E; [| reflexivity].
  apply Qltb_lt in E. lra.
Qed.

Lemma clamp_xfade_le_desired (desired d1 d2 : Q) :
  clamp_xfade desired d1 d2 <= desired.
Proof. rewrite clamp_xfade_Qmin. apply Q.le_min_l. Qed.

(** X5: in crossfade mode a resolved duration below 0.05 s (a zero
    override, say) always gives a hard cut: whatever the two lengths
    measure, the step is the plain concatenation: after the two probes it
    writes the list file naming the current file and the next clip, runs
    the concat of that list into the step's output, and runs no
    crossfade. *)
Theorem short_crossfade_is_hard_cut (b : Builder)
    (prev_seg curr_seg : AudioSegment) (current_file : string)
    (temp_counter : nat) (w w1 w2 : World) (d1 d2 : Q) :
  gap b = None ->
  get_duration current_file w = (d1, w1) ->
  get_duration (path curr_seg) w1 = (d2, w2) ->
  _get_crossfade_duration b (type prev_seg) (type curr_seg)
    (crossfade curr_seg) < 5 # 100 ->
  let temp_output := path_join (output_dir b) (temp_name temp_counter) in
  let list_file := path_join (output_dir b) "_concat_list.txt" in
  let step := merge_step b prev_seg curr_seg current_file temp_counter w in
  step = _concat_simple b [current_file; path curr_seg] temp_output w2
  /\ new_effects w (snd step)
     = [Run (Ffprobe current_file); Run (Ffprobe (path curr_seg));
        WriteList list_file [current_file; path curr_seg];
        Run (FfmpegConcat list_file temp_output)]
  /\ crossfades (new_effects w (snd step)) = [].
Proof.
  intros Hgap H1 H2 Hshort temp_output list_file step.
  destruct (merge_step_floor_cases b prev_seg curr_seg current_file
              temp_counter w w1 w2 d1 d2 Hgap H1 H2) as [Hbelow _].
  destruct (merge_step_floor_effects b prev_seg curr_seg current_file
              temp_counter w w1 w2 d1 d2 Hgap H1 H2) as [Ebelow _].
  assert (Hc : clamp_xfade
                 (_get_crossfade_duration b (type prev_seg) (type curr_seg)
                    (crossfade curr_seg)) d1 d2 < xfade_floor).
  { unfold xfade_floor.
    pose proof (clamp_xfade_le_desired
                  (_get_crossfade_duration b (type prev_seg) (type curr_seg)
                     (crossfade curr_seg)) d1 d2).
    lra. }
  destruct (Hbelow Hc) as [Hs Hx].
  repeat split; [exact Hs | apply Ebelow; exact Hc | exact Hx].
Qed.

(** X6: in crossfade mode, when the resolved duration is at least 0.05 s
    and at most half of each measured length, nothing is clamped: the step
    is the crossfade transform run with exactly the resolved duration. *)
Theorem long_clips_keep_crossfade (b : Builder)
    (prev_seg curr_seg : AudioSegment) (current_file : string)
    (temp_counter : nat) (w w1 w2 : World) (d1 d2 : Q) :
  gap b = None ->
  get_duration current_file w = (d1, w1) ->
  get_duration (path curr_seg) w1 = (d2, w2) ->
  let desired :=
    _get_crossfade_duration b (type prev_seg) (type curr_seg)
      (crossfade curr_seg) in
  5 # 100 <= desired -> desired <= d1 * (1 # 2) -> desired <= d2 * (1 # 2) ->
  let step := merge_step b prev_seg curr_seg current_file temp_counter w in
  step = _crossfade_two current_file (path curr_seg) desired
           (path_join (output_dir b) (temp_name temp_counter)) w2
  /\ crossfades (new_effects w (snd step)) = [desired].
Proof.
  intros Hgap H1 H2 desired Hfloor Hd1 Hd2 step.
  assert (Hc : clamp_xfade desired d1 d2 = desired).
  { unfold clamp_xfade. apply py_min_left.
    unfold py_min. destruct (Qltb d2 d1); assumption. }
  destruct (merge_step_floor_cases b prev_seg curr_seg current_file
              temp_counter w w1 w2 d1 d2 Hgap H1 H2) as [_ Habove].
  fold desired in Habove. rewrite Hc in Habove. apply Habove.
  unfold xfade_floor. lra.
Qed.

(** ** The configured policy *)

(** X7: a builder made without a policy, or with an empty one, holds the
    built-in table (0.1 s for the four voice/music pairs); a builder made
    with a non-empty policy holds exactly that policy: every pair resolves
    to the policy's own entry when it has one and to the 0.3 s fallback
    when it has none, never to the built-in 0.1 s. *)
Theorem init_policy (dir : string) (lufs : Q) (g : option Q) (rate : string) :
  crossfade_defaults (Builder_init dir None lufs g rate)
  = builtin_crossfade_defaults
  /\ crossfade_defaults (Builder_init dir (Some ∅) lufs g rate)
     = builtin_crossfade_defaults
  /\ (forall prev_type next_type,
        prev_type ∈ ["voice"; "music"] -> next_type ∈ ["voice"; "music"] ->
        _get_crossfade_duration (Builder_init dir None lufs g rate)
          prev_type next_type None = 1 # 10)
  /\ (forall policy,
        policy <> ∅ ->
        crossfade_defaults (Builder_init dir (Some policy) lufs g rate)
        = policy)
  /\ (forall policy prev_type next_type d,
        policy !! crossfade_key prev_type next_type = Some d ->
        _get_crossfade_duration (Builder_init dir (Some policy) lufs g rate)
          prev_type next_type None = d)
  /\ (forall policy prev_type next_type,
        policy <> ∅ ->
        policy !! crossfade_key prev_type next_type = None ->
        _get_crossfade_duration (Builder_init dir (Some policy) lufs g rate)
          prev_type next_type None = 3 # 10).
Proof.
  assert (Hheld : forall policy : gmap string Q,
            policy <> ∅ ->
            crossfade_defaults (Builder_init dir (Some policy) lufs g rate)
            = policy).
  { intros policy Hne. unfold Builder_init. cbn [crossfade_defaults].
    destruct (decide (policy = ∅)) as [-> | _]; [contradiction | reflexivity]. }
  split; [reflexivity |]. split; [reflexivity |]. split; [| split; [| split]].
  - intros prev_type next_type Hp Hn.
    repeat (apply elem_of_cons in Hp; destruct Hp as [-> | Hp]);
      [| | inversion Hp];
      repeat (apply elem_of_cons in Hn; destruct Hn as [-> | Hn]);
      try (inversion Hn); vm_compute; reflexivity.
  - exact Hheld.
  - intros policy prev_type next_type d Hd.
    assert (Hne : policy <> ∅).
    { intros ->. rewrite lookup_empty in Hd. discriminate Hd. }
    unfold _get_crossfade_duration. rewrite (Hheld policy Hne), Hd.
    reflexivity.
  - intros policy prev_type next_type Hne Hmiss.
    unfold _get_crossfade_duration. rewrite (Hheld policy Hne), Hmiss.
    reflexivity.
Qed.

(** ** Scratch files of one step *)


(** ** The normalizer as a whole *)

(** X9: when the captured analysis output decodes, [_normalize] runs
    exactly two commands, the analysis and then one loudnorm transform of
    the input file at the configured target level into the output file
    (single-pass, or the correction pass with measured values); it returns
    whether that transform succeeded, unless the transform failed with an
    error text that does not decode, which leaves the call by the decoding
    error; and no file other than the output file is created, changed or
    removed.  When the analysis output does not decode, the call is left by
    the decoding error after the analysis alone, with no file touched. *)
Theorem normalize_two_commands (b : Builder) (input_file output_file : string)
    (w : World) :
  let analyze := FfmpegAnalyze input_file (normalization_lufs b) in
  let captured := tool analyze (fs w) in
  let r := _normalize_exc b input_file output_file w in
  if locale_decodes (stdout captured) && locale_decodes (stderr captured)
  then
    exists transform,
      (transform
       = FfmpegLoudnorm input_file (normalization_lufs b) output_file
       \/ exists measured_i measured_tp measured_lra measured_thresh offset,
            transform
            = FfmpegLoudnormMeasured input_file (normalization_lufs b)
                measured_i measured_tp measured_lra measured_thresh offset
                output_file)
      /\ new_effects w (snd r) = [Run analyze; Run transform]
      /\ fst r
         = (let result := tool transform (fs w) in
            if returncode_ok result then Returns true
            else if utf8_decodes (stderr result) then Returns false
            else Raises)
      /\ forall p, p <> output_file -> fs (snd r) !! p = fs w !! p
  else
    fst r = Raises /\ new_effects w (snd r) = [Run analyze]
    /\ fs (snd r) = fs w.
Proof.
  intros analyze captured r.
  unfold r, _normalize_exc, bind. cbn [subprocess_run].
  fold analyze. fold captured.
  destruct (locale_decodes (stdout captured)
            && locale_decodes (stderr captured)).
  - assert (Hs : exists transform,
              (transform
               = FfmpegLoudnorm input_file (normalization_lufs b) output_file
               \/ exists measured_i measured_tp measured_lra measured_thresh
                    offset,
                    transform
                    = FfmpegLoudnormMeasured input_file (normalization_lufs b)
                        measured_i measured_tp measured_lra measured_thresh
                        offset output_file)
              /\ match extract_report (stderr captured) with
                 | Some text =>
                     match json_loads text with
                     | Some loudnorm_data =>
                         _normalize_second_pass_exc b loudnorm_data input_file
                           output_file
                     | None =>
                         _normalize_single_pass_exc b input_file output_file
                     end
                 | None => _normalize_single_pass_exc b input_file output_file
                 end
                 = (let! result := subprocess_run transform in
                    if returncode_ok result then ret (Returns true)
                    else if utf8_decodes (stderr result)
                         then ret (Returns false)
                         else ret Raises)).
    { destruct (extract_report _) as [text |];
        [destruct (json_loads text) as [data |] |].
      - eexists. split; [right; do 5 eexists; reflexivity | reflexivity].
      - eexists. split; [left; reflexivity | reflexivity].
      - eexists. split; [left; reflexivity | reflexivity]. }
    destruct Hs as (transform & Hshape & ->). exists transform.
    split; [exact Hshape |].
    assert (Hout : cmd_output transform = Some output_file).
    { destruct Hshape as [-> | (mi & mtp & mlra & mth & off & ->)];
        reflexivity. }
    unfold bind, subprocess_run, ret. cbn [cmd_output fs log]. rewrite Hout.
    split; [| split].
    + apply new_effects_app.
      destruct (returncode_ok _); [| destruct (utf8_decodes _)];
        cbn [snd log]; rewrite <- app_assoc; reflexivity.
    + cbn zeta.
      destruct (returncode_ok _); [| destruct (utf8_decodes _)]; reflexivity.
    + intros p Hp.
      destruct (returncode_ok _); [| destruct (utf8_decodes _)];
        cbn [snd fs]; (destruct (written _); [| reflexivity]);
        apply lookup_insert_ne; congruence.
  - cbn. repeat split. apply new_effects_app. reflexivity.
Qed.

(** ** Intermediate artifacts of the merge loop *)

Lemma append_cancel_r (s s' t : string) : s ++ t = s' ++ t -> s = s'.
Proof.
  assert (Hlen : forall a c : string,
            String.length (a ++ c) = (String.length a + String.length c)%nat).
  { intros a c. induction a as [| x a IH]; cbn; [| rewrite IH]; reflexivity. }
  revert s'. induction s as [| a s IH]; intros [| a' s'] H; cbn in H.
  - reflexivity.
  - apply (f_equal String.length) in H. cbn in H. rewrite Hlen in H. lia.
  - apply (f_equal String.length) in H. cbn in H. rewrite Hlen in H. lia.
  - injection H as -> H. rewrite (IH s' H). reflexivity.
Qed.

Lemma temp_name_inj (j n : nat) : temp_name j = temp_name n -> j = n.
Proof.
  unfold temp_name. intros H. cbn in H. injection H as H.
  apply append_cancel_r in H. apply pretty_nat_inj in H. exact H.
Qed.

Lemma temp_path_inj (dir : string) (j n : nat) :
  path_join dir (temp_name j) = path_join dir (temp_name n) -> j = n.
Proof. intros H. apply path_join_inj in H. apply temp_name_inj. exact H. Qed.

Lemma prefix_common (dir x y : string) :
  String.prefix (dir ++ x) (dir ++ y) = String.prefix x y.
Proof.
  induction dir as [| a dir IH]; cbn; [reflexivity |].
  destruct (ascii_dec a a); [exact IH | contradiction].
Qed.

(** A temp artifact passes the test of line 344. *)
Lemma temp_path_retirable (dir : string) (n : nat) :
  String.prefix (path_join dir "_temp") (path_join dir (temp_name n)) = true.
Proof. unfold path_join. rewrite prefix_common. reflexivity. Qed.

Lemma keeps_absent_merge_step_at (b : Builder) (p : string)
    (prev_seg curr_seg : AudioSegment) (current_file : string) (n : nat) :
  p <> path_join (output_dir b) (temp_name n) ->
  p <> path_join (output_dir b) (silence_name (S n)) ->
  p <> path_join (output_dir b) "_concat_list.txt" ->
  keeps_absent p (merge_step b prev_seg curr_seg current_file n).
Proof.
  intros Ht Hs Hl. unfold merge_step. destruct (gap b) as [g |].
  - unfold gap_step. absent_steps.
    + apply keeps_absent_run. cbn [cmd_output]. congruence.
    + apply keeps_absent_concat; congruence.
  - unfold crossfade_step. absent_steps.
    + unfold _crossfade_two. absent_steps.
      apply keeps_absent_run. cbn [cmd_output]. congruence.
    + apply keeps_absent_concat; congruence.
Qed.

(** Steps numbered from [k] on never recreate an artifact numbered below
    [k]. *)
Lemma keeps_absent_earlier_temp (b : Builder) (j : nat)
    (rest : list AudioSegment) (prev_seg : AudioSegment)
    (current_file : string) (k : nat) :
  (j < k)%nat ->
  keeps_absent (path_join (output_dir b) (temp_name j))
    (merge_loop b prev_seg rest current_file k).
Proof.
  revert prev_seg current_file k.
  induction rest as [| curr_seg rest IH]; intros prev_seg current_file k Hj;
    cbn [merge_loop].
  - apply keeps_absent_ret.
  - apply keeps_absent_bind.
    + apply keeps_absent_merge_step_at.
      * intros E. apply temp_path_inj in E. lia.
      * intros E. apply path_join_inj in E. unfold temp_name, silence_name in E.
        cbn in E. discriminate E.
      * intros E. apply path_join_inj in E. unfold temp_name in E.
        cbn in E. discriminate E.
    + intros success. destruct success; cbn [negb].
      * apply keeps_absent_bind; [absent_steps | intros _; apply IH; lia].
      * apply keeps_absent_ret.
Qed.

Lemma merge_loop_result (b : Builder) (rest : list AudioSegment)
    (prev_seg : AudioSegment) (current_file : string) (k : nat)
    (w w' : World) (merged_file : string) :
  merge_loop b prev_seg rest current_file k w = (Some merged_file, w') ->
  rest <> [] ->
  merged_file
  = path_join (output_dir b) (temp_name (k + length rest - 1)).
Proof.
  revert prev_seg current_file k w.
  induction rest as [| curr_seg rest IH]; intros prev_seg current_file k w H Hne;
    [contradiction |].
  cbn [merge_loop] in H. unfold bind in H.
  destruct (merge_step _ _ _ _ _ w) as [success w1].
  destruct success; cbn [negb] in H; [| discriminate H].
  destruct (if String.prefix _ current_file then _ else _) as [u w2].
  destruct rest as [| next rest].
  - cbn [merge_loop] in H. injection H as <- _. cbn [length].
    replace (k + 1 - 1)%nat with k by lia. reflexivity.
  - rewrite (IH _ _ _ _ H) by discriminate. cbn [length]. f_equal. f_equal. lia.
Qed.

(** A successful step retires the current artifact when it is a temp. *)
Lemma merge_loop_retires_current (b : Builder) (curr_seg : AudioSegment)
    (rest : list AudioSegment) (prev_seg : AudioSegment) (j k : nat)
    (w w' : World) (merged_file : string) :
  (j < k)%nat ->
  merge_loop b prev_seg (curr_seg :: rest)
    (path_join (output_dir b) (temp_name j)) k w = (Some merged_file, w') ->
  fs w' !! path_join (output_dir b) (temp_name j) = None.
Proof.
  intros Hj. cbn [merge_loop]. unfold bind.
  destruct (merge_step _ _ _ _ _ w) as [success w1].
  destruct success; cbn [negb]; [| discriminate].
  rewrite temp_path_retirable. cbn [unlink].
  intros H.
  assert (Hjk : (j < S k)%nat) by lia.
  pose proof (keeps_absent_earlier_temp b j rest curr_seg
                (path_join (output_dir b) (temp_name k)) (S k) Hjk
                {| fs := delete (path_join (output_dir b) (temp_name j)) (fs w1);
                   log := log w1 |}) as Hk.
  rewrite H in Hk. apply Hk. cbn [fs]. apply lookup_delete_eq.
Qed.

Lemma merge_loop_retires (b : Builder) (rest : list AudioSegment)
    (prev_seg : AudioSegment) (current_file : string) (k : nat)
    (w w' : World) (merged_file : string) :
  merge_loop b prev_seg rest current_file k w = (Some merged_file, w') ->
  forall j, (k <= j < k + length rest - 1)%nat ->
    fs w' !! path_join (output_dir b) (temp_name j) = None.
Proof.
  revert prev_seg current_file k w.
  induction rest as [| curr_seg rest IH]; intros prev_seg current_file k w H j Hj;
    [cbn [length] in Hj; lia |].
  cbn [merge_loop] in H. unfold bind in H.
  destruct (merge_step _ _ _ _ _ w) as [success w1].
  destruct success; cbn [negb] in H; [| discriminate H].
  destruct (if String.prefix _ current_file then _ else _) as [u w2].
  cbn [length] in Hj.
  destruct (decide (j = k)) as [-> | Hne].
  - destruct rest as [| next rest]; [cbn [length] in Hj; lia |].
    apply (merge_loop_retires_current b next rest curr_seg k (S k) w2 w'
             merged_file); [lia | exact H].
  - apply (IH _ _ _ _ H). lia.
Qed.

(** X10: when the merge of two or more segments succeeds, the merged track
    is [_temp_<n-2>.wav] for [n] segments, and every earlier intermediate
    [_temp_0.wav] ... [_temp_<n-3>.wav] has been removed again: only one
    merge artifact is alive at the end. *)
Theorem merge_retires_intermediates (b : Builder) (first : AudioSegment)
    (rest : list AudioSegment) (w w' : World) (merged_file : string) :
  rest <> [] ->
  merge_segments b first rest w = (Some merged_file, w') ->
  merged_file = path_join (output_dir b) (temp_name (length rest - 1))
  /\ forall j, (j < length rest - 1)%nat ->
       fs w' !! path_join (output_dir b) (temp_name j) = None.
Proof.
  intros Hne H. unfold merge_segments in H.
  destruct rest as [| second rest]; [contradiction |]. split.
  - apply (merge_loop_result _ _ _ _ _ _ _ _ H). discriminate.
  - intros j Hj. apply (merge_loop_retires _ _ _ _ _ _ _ _ H). lia.
Qed.

(** ** Which commands a build can run *)

Lemma logs_only_ret {A} (P : Effect -> Prop) (a : A) : logs_only P (ret a).
Proof. intros w. exists []. split; [symmetry; apply app_nil_r | constructor]. Qed.

Lemma logs_only_bind {A B} (P : Effect -> Prop) (m : M A) (k : A -> M B) :
  logs_only P m -> (forall a, logs_only P (k a)) -> logs_only P (bind m k).
Proof.
  intros Hm Hk w. unfold bind. destruct (Hm w) as (l1 & E1 & F1).
  destruct (m w) as [a w1]. cbn [snd] in E1.
  destruct (Hk a w1) as (l2 & E2 & F2).
  exists (l1 ++ l2)%list. split.
  - rewrite E2, E1, app_assoc. reflexivity.
  - apply Forall_app. split; assumption.
Qed.

Lemma logs_only_run (P : Effect -> Prop) (c : Cmd) :
  P (Run c) -> logs_only P (subprocess_run c).
Proof.
  intros H w. exists [Run c]. split; [reflexivity |].
  constructor; [exact H | constructor].
Qed.

Lemma logs_only_write_list (P : Effect -> Prop) (q : string)
    (entries : list string) :
  P (WriteList q entries) -> logs_only P (write_list q entries).
Proof.
  intros H w. exists [WriteList q entries]. split; [reflexivity |].
  constructor; [exact H | constructor].
Qed.

Lemma logs_only_silent {A} (P : Effect -> Prop) (m : M A) :
  (forall w, log (snd (m w)) = log w) -> logs_only P m.
Proof.
  intros H w. exists []. split; [rewrite H, app_nil_r; reflexivity | constructor].
Qed.

Lemma logs_only_get_duration (P : Effect -> Prop) (q : string) :
  P (Run (Ffprobe q)) -> logs_only P (get_duration q).
Proof.
  intros H w. exists [Run (Ffprobe q)]. rewrite get_duration_world.
  split; [reflexivity | constructor; [exact H | constructor]].
Qed.

Ltac log_steps :=
  repeat match goal with
    | |- logs_only _ (ret _) => apply logs_only_ret
    | |- logs_only _ (unlink _) =>
        apply logs_only_silent; intros ?; reflexivity
    | |- logs_only _ (sweep_temp _) =>
        apply logs_only_silent; intros ?; reflexivity
    | |- logs_only _ (path_exists _) =>
        apply logs_only_silent; intros ?; reflexivity
    | |- logs_only _ (bind _ _) => apply logs_only_bind; [| intros ?]
    | |- logs_only _ (if ?c then _ else _) => destruct c eqn:?
    | |- logs_only _ (match ?c with Some _ => _ | None => _ end) =>
        destruct c
    end.

Lemma floor_xfade_positive (x : Q) :
  Qltb 0 (floor_xfade x) = true -> 5 # 100 <= floor_xfade x.
Proof.
  unfold floor_xfade. destruct (Qltb x xfade_floor) eqn:E.
  - intros H. apply Qltb_lt in H. lra.
  - intros _. apply Qltb_ge in E. exact E.
Qed.

Section Permitted.

Variable b : Builder.
Variable normalize : bool.
Variable output_filename : string.

Let P := permitted b normalize output_filename.

Lemma permitted_concat (files : list string) (output : string) :
  logs_only P (_concat_simple b files output).
Proof.
  unfold _concat_simple. log_steps.
  - apply logs_only_write_list. reflexivity.
  - apply logs_only_run. reflexivity.
Qed.

Lemma permitted_merge_step (prev_seg curr_seg : AudioSegment)
    (current_file : string) (temp_counter : nat) :
  logs_only P (merge_step b prev_seg curr_seg current_file temp_counter).
Proof.
  unfold merge_step. destruct (gap b) as [g |] eqn:Hgap.
  - unfold gap_step. log_steps.
    + apply logs_only_run. exact Hgap.
    + apply permitted_concat.
  - unfold crossfade_step.
    apply logs_only_bind;
      [apply logs_only_get_duration; left; exact Hgap | intros d1].
    apply logs_only_bind;
      [apply logs_only_get_duration; left; exact Hgap | intros d2].
    destruct (Qltb 0 _) eqn:Epos.
    + unfold _crossfade_two. log_steps. apply logs_only_run.
      split; [exact Hgap | apply floor_xfade_positive; exact Epos].
    + apply permitted_concat.
Qed.

Lemma permitted_merge_loop (rest : list AudioSegment)
    (prev_seg : AudioSegment) (current_file : string) (temp_counter : nat) :
  logs_only P (merge_loop b prev_seg rest current_file temp_counter).
Proof.
  revert prev_seg current_file temp_counter.
  induction rest as [| curr_seg rest IH]; intros prev_seg current_file n;
    cbn [merge_loop].
  - apply logs_only_ret.
  - apply logs_only_bind; [apply permitted_merge_step |].
    intros success. destruct success; cbn [negb]; [| apply logs_only_ret].
    apply logs_only_bind; [log_steps | intros _; apply IH].
Qed.

Lemma permitted_normalize_merged (merged_file : string) :
  logs_only P (normalize_merged b normalize merged_file).
Proof.
  unfold normalize_merged. destruct normalize eqn:En; [| apply logs_only_ret].
  apply logs_only_bind; [| intros ok; log_steps].
  unfold _normalize. apply logs_only_bind.
  - apply logs_only_run. repeat split.
  - intros result.
    assert (Hs : logs_only P
                   (_normalize_single_pass b merged_file
                      (path_join (output_dir b) "_temp_normalized.wav"))).
    { unfold _normalize_single_pass. log_steps. apply logs_only_run.
      repeat split. }
    destruct (extract_report _) as [text |]; [| exact Hs].
    destruct (json_loads text) as [data |]; [| exact Hs].
    unfold _normalize_second_pass. log_steps. apply logs_only_run.
    repeat split.
Qed.

Lemma permitted_export (track : string) :
  logs_only P (export_and_cleanup b output_filename track).
Proof.
  unfold export_and_cleanup. apply logs_only_bind.
  - unfold export_track. destruct (endswith output_filename ".mp3") eqn:E.
    + unfold _export_mp3. log_steps. apply logs_only_run.
      repeat split. exact E.
    + log_steps. apply logs_only_run. right. split; [exact E | reflexivity].
  - intros success. log_steps.
    apply logs_only_get_duration. right. reflexivity.
Qed.

(** X11: every command a build runs is licensed by its configuration.
    Crossfades are run only in crossfade mode and never with a window below
    0.05 s; silence is synthesized only in gap mode and only with the
    configured length; in gap mode nothing is probed but the finished
    output; loudness commands are run only when [normalize] is set, with
    the configured target; the mp3 encoder is run only for an output name
    ending in [.mp3], with the configured bitrate, onto the output path. *)
Theorem build_runs_permitted_commands (segments : list AudioSegment)
    (w : World) :
  exists l,
    log (snd (build b segments output_filename normalize w))
    = (log w ++ l)%list
    /\ Forall (permitted b normalize output_filename) l.
Proof.
  revert w. change (logs_only P (build b segments output_filename normalize)).
  unfold build. destruct segments as [| first rest]; [apply logs_only_ret |].
  apply logs_only_bind.
  - apply logs_only_silent. intros w0. rewrite all_exist_world. reflexivity.
  - intros present. destruct present; cbn [negb]; [| apply logs_only_ret].
    apply logs_only_bind.
    + unfold merge_segments. destruct rest as [| second rest].
      * log_steps. apply logs_only_run. left. reflexivity.
      * apply permitted_merge_loop.
    + intros merged. destruct merged as [merged_file |];
        [| apply logs_only_ret].
      apply logs_only_bind; [apply permitted_normalize_merged |].
      intros track. apply permitted_export.
Qed.

End Permitted.

(** ** Cleanup once merging is over *)

End Model.

(** ** The report scanned out of the analysis text *)

Lemma rfind_lower (c : ascii) (s : string) : (-1 <= rfind c s)%Z.
Proof.
  induction s as [| a s IH]; cbn; [lia |].
  destruct (Z.leb_spec 0 (rfind c s)); [lia |].
  destruct (Ascii.eqb a c); lia.
Qed.

Lemma rfind_lt_length (c : ascii) (s : string) :
  (rfind c s < Z.of_nat (String.length s))%Z.
Proof.
  induction s as [| a s IH]; cbn [rfind String.length]; [lia |].
  destruct (Z.leb_spec 0 (rfind c s)); [lia |].
  destruct (Ascii.eqb a c); lia.
Qed.

Lemma rfind_occurs (c : ascii) (s : string) :
  (0 <=? rfind c s)%Z = occurs c s.
Proof.
  induction s as [| a s IH]; cbn [rfind occurs]; [reflexivity |].
  rewrite <- IH. pose proof (rfind_lower c s).
  destruct (Z.leb_spec 0 (rfind c s)).
  - rewrite orb_true_r. apply Z.leb_le. lia.
  - rewrite orb_false_r. destruct (Ascii.eqb a c); reflexivity.
Qed.

Lemma occurs_app (c : ascii) (s t : string) :
  occurs c (s ++ t) = occurs c s || occurs c t.
Proof.
  induction s as [| a s IH]; cbn [String.append occurs]; [reflexivity |].
  rewrite IH. apply orb_assoc.
Qed.

Lemma rfind_app (c : ascii) (s t : string) :
  rfind c (s ++ t)
  = if occurs c t then (Z.of_nat (String.length s) + rfind c t)%Z
    else rfind c s.
Proof.
  induction s as [| a s IH]; cbn [String.append rfind String.length].
  - destruct (occurs c t) eqn:E; [cbn; lia |].
    rewrite <- rfind_occurs in E. pose proof (rfind_lower c t).
    apply Z.leb_gt in E. cbn. lia.
  - rewrite IH. destruct (occurs c t) eqn:E.
    + rewrite <- rfind_occurs in E. apply Z.leb_le in E.
      replace (0 <=? Z.of_nat (String.length s) + rfind c t)%Z with true
        by (symmetry; apply Z.leb_le; lia).
      lia.
    + reflexivity.
Qed.

(** The last occurrence splits the text. *)
Lemma rfind_split (c : ascii) (s : string) :
  occurs c s = true ->
  exists pre post,
    s = pre ++ String c post /\ occurs c post = false
    /\ rfind c s = Z.of_nat (String.length pre).
Proof.
  induction s as [| a s IH]; cbn [occurs rfind]; [discriminate |].
  intros H. rewrite rfind_occurs. destruct (occurs c s) eqn:E.
  - destruct (IH eq_refl) as (pre & post & -> & Hpost & Hr).
    exists (String a pre), post. rewrite Hr. cbn [String.length].
    repeat split; [assumption | lia].
  - rewrite orb_false_r in H. rewrite H. apply Ascii.eqb_eq in H. subst a.
    exists EmptyString, s. repeat split; assumption.
Qed.

Lemma substring_skip (pre t : string) (n : nat) :
  String.substring (String.length pre) n (pre ++ t) = String.substring 0 n t.
Proof. induction pre as [| a pre IH]; cbn; [reflexivity | exact IH]. Qed.

Lemma substring_whole_prefix (r post : string) :
  String.substring 0 (String.length r) (r ++ post) = r.
Proof.
  induction r as [| a r IH]; cbn.
  - destruct post; reflexivity.
  - rewrite IH. reflexivity.
Qed.

Lemma length_append (s t : string) :
  String.length (s ++ t) = (String.length s + String.length t)%nat.
Proof. induction s as [| a s IH]; cbn; [reflexivity | rewrite IH; reflexivity]. Qed.

(** Where the two scans land on a text of the shape
    [pre ++ "{" ++ body ++ "}" ++ post]. *)
Lemma scans_of_shape (pre body post : string) :
  occurs lbrace body = false -> occurs lbrace post = false ->
  occurs rbrace post = false ->
  let s := pre ++ String lbrace (body ++ String rbrace post) in
  rfind lbrace s = Z.of_nat (String.length pre)
  /\ rfind rbrace s
     = Z.of_nat (String.length pre + 1 + String.length body).
Proof.
  intros Hb Hp Hr s. unfold s. split.
  - rewrite rfind_app. cbn [occurs]. rewrite Ascii.eqb_refl. cbn [orb].
    cbn [rfind]. rewrite rfind_occurs, occurs_app. cbn [occurs].
    rewrite Hb, Hp. cbn. lia.
  - rewrite rfind_app. cbn [occurs]. rewrite occurs_app. cbn [occurs].
    rewrite Ascii.eqb_refl, !orb_true_r.
    cbn [rfind]. rewrite rfind_app. cbn [occurs]. rewrite Ascii.eqb_refl.
    cbn [orb rfind]. rewrite rfind_occurs, Hr. cbn.
    replace (0 <=? Z.of_nat (String.length body) + 0)%Z with true
      by (symmetry; apply Z.leb_le; lia).
    lia.
Qed.

Lemma slice_of_shape (pre body post : string) :
  let s := pre ++ String lbrace (body ++ String rbrace post) in
  py_slice s (Z.of_nat (String.length pre))
    (Z.of_nat (String.length pre + 1 + String.length body) + 1)
  = String lbrace (body ++ String rbrace EmptyString).
Proof.
  intros s. unfold py_slice, s. rewrite Nat2Z.id.
  replace (Z.to_nat _)
    with (String.length (String lbrace (body ++ String rbrace EmptyString))).
  - rewrite substring_skip.
    replace (String lbrace (body ++ String rbrace post))
      with (String lbrace (body ++ String rbrace EmptyString) ++ post).
    + apply substring_whole_prefix.
    + cbn. rewrite append_assoc. reflexivity.
  - cbn [String.length]. rewrite length_append. cbn [String.length]. lia.
Qed.

(** C5, as the code has it: the text handed to the report parser runs from
    the last opening brace to the last closing brace.  [extract_report]
    yields [r] exactly when the text splits as
    [pre ++ "{" ++ body ++ "}" ++ post] with [r = "{" ++ body ++ "}"], no
    opening brace in [body] or [post], and no closing brace in [post]. *)
Theorem extract_report_last_braces (s r : string) :
  extract_report s = Some r
  <-> exists pre body post,
        s = pre ++ "{" ++ body ++ "}" ++ post
        /\ r = "{" ++ body ++ "}"
        /\ occurs lbrace body = false
        /\ occurs lbrace post = false
        /\ occurs rbrace post = false.
Proof.
  split.
  - unfold extract_report. intros H.
    destruct (0 <=? rfind lbrace s)%Z eqn:Eopen; [| discriminate H].
    destruct (rfind lbrace s <? rfind rbrace s + 1)%Z eqn:Eord;
      [| discriminate H].
    cbn [andb] in H. injection H as <-.
    rewrite rfind_occurs in Eopen.
    destruct (rfind_split lbrace s Eopen) as (pre & t & -> & Ht & Hi).
    apply Z.ltb_lt in Eord. rewrite Hi in Eord.
    rewrite rfind_app in Eord. cbn [occurs] in Eord.
    change (Ascii.eqb lbrace rbrace) with false in Eord. cbn [orb] in Eord.
    destruct (occurs rbrace t) eqn:Et.
    + destruct (rfind_split rbrace t Et) as (body & post & -> & Hpost & _).
      rewrite occurs_app in Ht. cbn [occurs] in Ht.
      change (Ascii.eqb rbrace lbrace) with false in Ht. cbn [orb] in Ht.
      apply orb_false_iff in Ht. destruct Ht as [Hb Hp].
      exists pre, body, post.
      destruct (scans_of_shape pre body post Hb Hp Hpost) as [E1 E2].
      cbn zeta in E1, E2. rewrite E1, E2, slice_of_shape.
      repeat split; assumption.
    + pose proof (rfind_lt_length rbrace pre). lia.
  - intros (pre & body & post & -> & -> & Hb & Hp & Hr).
    unfold extract_report.
    destruct (scans_of_shape pre body post Hb Hp Hr) as [E1 E2].
    cbn zeta in E1, E2.
    change (pre ++ "{" ++ body ++ "}" ++ post)
      with (pre ++ String lbrace (body ++ String rbrace post)).
    rewrite E1, E2.
    replace (0 <=? Z.of_nat (String.length pre))%Z with true
      by (symmetry; apply Z.leb_le; lia).
    replace (Z.of_nat (String.length pre)
             <? Z.of_nat (String.length pre + 1 + String.length body) + 1)%Z
      with true by (symmetry; apply Z.ltb_lt; lia).
    cbn [andb]. rewrite slice_of_shape. reflexivity.
Qed.

(** C5, witness: the report scanned out of the reference analysis text. *)
Lemma extract_report_last_braces_witness :
  extract_report analysis_text = Some report_text.
Proof.
  apply (extract_report_last_braces analysis_text report_text).
  exists "Input #0, wav, from 'show {take 2}.wav': [Parsed_loudnorm_0] ".
  exists (String.substring 1 (String.length report_text - 2) report_text).
  exists EmptyString.
  repeat split; reflexivity.
Defined.

(** C5, as the specification words it, fails: with a brace earlier in the
    text, the scan starts at the last opening brace, not the first. *)
Lemma extract_report_not_first_brace :
  extract_report "from 'show {take 2}.wav' {input_i : -23.5}"
  <> spec_report "from 'show {take 2}.wav' {input_i : -23.5}".
Proof. vm_compute. intros H. discriminate H. Qed.

(** ** Builds on the reference tools *)

(** C4 fails on the code: when the second merge fails, the build returns
    [None] at once and the first merge's artifact [_temp_0.wav] stays in the
    output directory. *)
Lemma merge_failure_leaves_temp :
  fst (build decimal_float report_loads
         (with_fault second_merge_fails ideal_tool) default_builder
         programme "test_output.mp3" true studio) = None
  /\ fs (snd (build decimal_float report_loads
                (with_fault second_merge_fails ideal_tool) default_builder
                programme "test_output.mp3" true studio))
     !! "output/_temp_0.wav" = Some (Audio (49 # 10))
  /\ is_temp_artifact "output" "output/_temp_0.wav" = true.
Proof. vm_compute. repeat split; reflexivity. Qed.


(** ** Silence-gap mode on the reference tools *)





(** ** Normalization fallback *)

(** On output that decodes: whenever the analysis text yields no report,
    the normalizer is the single-pass transform, run with the target level
    as its only loudness parameter, and a build that got past merging goes
    on to export whatever normalization hands on; on the reference tools
    with an analysis that prints no report, the build of the sample
    programme returns its output path. *)
Theorem unparsable_analysis_falls_back :
  (forall py_float json_loads tool (b : Builder)
     (input_file output_file : string) (w : World),
     analysis_unparsable json_loads tool b input_file w ->
     let analyze := FfmpegAnalyze input_file (normalization_lufs b) in
     _normalize json_loads tool b input_file output_file w
     = _normalize_single_pass tool b input_file output_file
         (snd (subprocess_run tool analyze w))
     /\ new_effects w (snd (_normalize json_loads tool b input_file
                              output_file w))
        = [Run analyze;
           Run (FfmpegLoudnorm input_file (normalization_lufs b) output_file)]
     /\ forall first rest output_filename w0 w1 w2 track,
          all_exist (first :: rest) w0 = (true, w1) ->
          merge_segments py_float tool b first rest w1 = (Some input_file, w) ->
          normalize_merged json_loads tool b true input_file w = (track, w2) ->
          build py_float json_loads tool b (first :: rest) output_filename
            true w0
          = export_and_cleanup py_float tool b output_filename track w2)
  /\ fst (build decimal_float report_loads
            (with_fault analysis_prints_no_report ideal_tool)
            default_builder programme "test_output.mp3" true studio)
     = Some "output/test_output.mp3".
Proof.
  split.
  - intros py_float json_loads tool b input_file output_file w H analyze.
    destruct (normalize_unparsable json_loads tool b input_file output_file w H)
      as [E L].
    split; [exact E |]. split; [exact L |].
    intros first rest output_filename w0 w1 w2 track H0 H1 H2.
    apply (build_past_merge py_float json_loads tool b first rest
             output_filename true w0 w1 w w2 input_file track H0 H1 H2).
  - vm_compute. reflexivity.
Qed.

(** The normalizer on the merged track of the sample programme when the
    analysis prints no report. *)
Lemma unparsable_analysis_falls_back_witness :
  new_effects studio
    (snd (_normalize report_loads
            (with_fault analysis_prints_no_report ideal_tool)
            default_builder "test1.wav" "output/_temp_normalized.wav" studio))
  = [Run (FfmpegAnalyze "test1.wav" (-16));
     Run (FfmpegLoudnorm "test1.wav" (-16) "output/_temp_normalized.wav")].
Proof.
  destruct unparsable_analysis_falls_back as [H _].
  apply (H decimal_float report_loads
           (with_fault analysis_prints_no_report ideal_tool)
           default_builder "test1.wav" "output/_temp_normalized.wav" studio).
  vm_compute. exact I.
Defined.

(** C7, witness: the analysis of a clip with a Latin-1 name prints bytes
    that are not UTF-8; the normalizer is left by the decoding error after
    the analysis, and no single-pass transform is run. *)
Lemma undecodable_analysis_raises_witness :
  fst (_normalize_exc report_loads
         (with_fault analysis_prints_latin1 ideal_tool) utf8_valid utf8_valid
         default_builder "output/_temp_1.wav" "output/_temp_normalized.wav"
         studio)
  = Raises
  /\ new_effects studio
       (snd (_normalize_exc report_loads
               (with_fault analysis_prints_latin1 ideal_tool) utf8_valid
               utf8_valid default_builder "output/_temp_1.wav"
               "output/_temp_normalized.wav" studio))
     = [Run (FfmpegAnalyze "output/_temp_1.wav" (-16))].
Proof.
  destruct (undecodable_analysis_raises report_loads
              (with_fault analysis_prints_latin1 ideal_tool) utf8_valid
              utf8_valid default_builder "output/_temp_1.wav"
              "output/_temp_normalized.wav" studio) as [H _].
  destruct H as (Hr & Hl & _); [vm_compute; reflexivity |].
  split; [exact Hr | exact Hl].
Defined.

(** ** Witnesses on the sample programme *)

(** C2, witness: a zero override, a configured pair, an unknown pair. *)
Lemma resolve_spec_witness :
  _get_crossfade_duration default_builder "voice" "music" (Some 0) = 0
  /\ _get_crossfade_duration default_builder "voice" "music" None = 1 # 10
  /\ _get_crossfade_duration default_builder "jingle" "voice" None = 3 # 10.
Proof.
  split; [| split].
  - apply (resolve_spec default_builder "voice" "music").
  - apply (resolve_spec default_builder "voice" "music"). vm_compute. reflexivity.
  - apply (resolve_spec default_builder "jingle" "voice"). vm_compute. reflexivity.
Defined.


(** C3, witness: 0.1 s is not below the floor, so the first merge of the
    sample programme runs the crossfade with that window. *)
Lemma crossfade_step_floor_witness :
  new_effects studio
    (snd (merge_step decimal_float ideal_tool default_builder voice1 music2
            "test1.wav" 0 studio))
  = [Run (Ffprobe "test1.wav"); Run (Ffprobe "test2.wav");
     Run (FfmpegCrossfade "test1.wav" "test2.wav" (1 # 10)
            "output/_temp_0.wav")].
Proof.
  destruct (crossfade_step_floor decimal_float ideal_tool default_builder
              voice1 music2 "test1.wav" 0 studio probed1 probed2 3 2
              eq_refl eq_refl eq_refl) as [_ H].
  apply H. intros Hlt. vm_compute in Hlt. discriminate Hlt.
Defined.

(** C10, witness: the probe fails on the music bed, its length measures 0,
    and the first merge runs no crossfade. *)
Lemma zero_length_degrades_to_concat_witness :
  fst (get_duration decimal_float (with_fault probe_fails_on_music ideal_tool)
         "test2.wav" studio) = 0
  /\ new_effects studio
       (snd (merge_step decimal_float
               (with_fault probe_fails_on_music ideal_tool)
               default_builder voice1 music2 "test1.wav" 0 studio))
     = [Run (Ffprobe "test1.wav"); Run (Ffprobe "test2.wav");
        WriteList "output/_concat_list.txt" ["test1.wav"; "test2.wav"];
        Run (FfmpegConcat "output/_concat_list.txt" "output/_temp_0.wav")].
Proof.
  destruct (zero_length_degrades_to_concat decimal_float
              (with_fault probe_fails_on_music ideal_tool)) as [Hp Hs].
  split.
  - apply Hp. left. reflexivity.
  - apply (Hs default_builder voice1 music2 "test1.wav" 0%nat studio probed1
             probed2 3 0 eq_refl eq_refl eq_refl).
    right. reflexivity.
Defined.



(** ** A whole merge in silence-gap mode on the reference tools *)




(** ** The caller's segment list *)

Lemma get_segment_state_status (state : gmap string Cli.SegState) (i : Z) :
  fst (Cli._get_segment_state state i) = status_of state (pretty i)
  /\ forall key,
       status_of (snd (Cli._get_segment_state state i)) key
       = status_of state key.
Proof.
  unfold Cli._get_segment_state, status_of.
  destruct (state !! pretty i) as [st |] eqn:E; cbn [fst snd].
  - split; reflexivity.
  - split; [reflexivity |]. intros key.
    destruct (decide (pretty i = key)) as [<- | Hne].
    + rewrite lookup_insert_eq, E. reflexivity.
    + rewrite lookup_insert_ne by exact Hne. reflexivity.
Qed.

(** What the loop collects depends on the state only through the status
    of each key, and the loop leaves every status as it was. *)
Lemma collect_respects_status (pjoin : string -> string -> string)
    (script_dir recordings_dir : string) (w : World)
    (segments : list Cli.Segment) :
  forall state state',
    (forall key, status_of state key = status_of state' key) ->
    let r := Cli.collect pjoin script_dir recordings_dir w state segments in
    let r' := Cli.collect pjoin script_dir recordings_dir w state' segments in
    r.1.1 = r'.1.1 /\ r.1.2 = r'.1.2
    /\ forall key, status_of r.2 key = status_of state key.
Proof.
  induction segments as [| segment segments IH]; intros state state' Hst;
    cbn [Cli.collect].
  - cbn. repeat split.
  - destruct (String.eqb (Cli.type segment) "audio").
    + specialize (IH state state' Hst). cbn zeta in IH.
      destruct (Cli.collect _ _ _ _ state segments) as [[a m] s].
      destruct (Cli.collect _ _ _ _ state' segments) as [[a' m'] s'].
      cbn [fst snd] in IH. destruct IH as (-> & -> & Hs).
      destruct (bool_decide _); cbn [fst snd]; repeat split; exact Hs.
    + destruct (String.eqb (Cli.type segment) "text"); [| apply IH; exact Hst].
      destruct (get_segment_state_status state (Cli.id segment)) as [E1 K1].
      destruct (get_segment_state_status state' (Cli.id segment)) as [E2 K2].
      destruct (Cli._get_segment_state state (Cli.id segment)) as [st s1].
      destruct (Cli._get_segment_state state' (Cli.id segment)) as [st' s1'].
      cbn [fst snd] in E1, E2, K1, K2.
      assert (Hsame : st' = st) by (rewrite E1, E2; symmetry; apply Hst).
      clear E1 E2. subst st'.
      assert (Hst1 : forall key, status_of s1 key = status_of s1' key).
      { intros key. rewrite K1, K2. apply Hst. }
      specialize (IH s1 s1' Hst1). cbn zeta in IH.
      destruct (Cli.collect _ _ _ _ s1 segments) as [[a m] s].
      destruct (Cli.collect _ _ _ _ s1' segments) as [[a' m'] s'].
      cbn [fst snd] in IH. destruct IH as (-> & -> & Hs).
      assert (Hs' : forall key, status_of s key = status_of state key).
      { intros key. rewrite Hs. apply K1. }
      destruct (negb _ || negb _); [cbn [fst snd]; repeat split; exact Hs' |].
      destruct (bool_decide _); cbn [fst snd]; repeat split; exact Hs'.
Qed.

Lemma collect_segments_exist (pjoin : string -> string -> string)
    (script_dir recordings_dir : string) (w : World)
    (segments : list Cli.Segment) (state : gmap string Cli.SegState) :
  Forall (fun seg =>
            is_Some (fs w !! path seg)
            /\ (type seg = "music" \/ (type seg = "voice" /\ crossfade seg = None)))
    (Cli.collect pjoin script_dir recordings_dir w state segments).1.1.
Proof.
  revert state. induction segments as [| segment segments IH]; intros state;
    cbn [Cli.collect].
  - constructor.
  - destruct (String.eqb (Cli.type segment) "audio").
    + specialize (IH state).
      destruct (Cli.collect _ _ _ _ state segments) as [[a m] s].
      cbn [fst] in IH. destruct (bool_decide _) eqn:E; cbn [fst]; [| exact IH].
      constructor; [| exact IH]. cbn [path type]. split.
      * apply bool_decide_eq_true in E. exact E.
      * left. reflexivity.
    + destruct (String.eqb (Cli.type segment) "text"); [| apply IH].
      destruct (Cli._get_segment_state state (Cli.id segment)) as [st s1].
      specialize (IH s1).
      destruct (Cli.collect _ _ _ _ s1 segments) as [[a m] s].
      cbn [fst] in IH. destruct (negb _ || negb _); [exact IH |].
      destruct (bool_decide _) eqn:E; cbn [fst]; [| exact IH].
      constructor; [| exact IH]. cbn [path type crossfade]. split.
      * apply bool_decide_eq_true in E. exact E.
      * right. split; reflexivity.
Qed.

(** X13: every segment [cmd_build] hands to the builder names a file that
    exists, so the builder's missing-file guard passes on that list; and
    each of them is a music segment, or a voice segment without crossfade
    override. *)
Theorem cmd_build_segments_valid (pjoin : string -> string -> string)
    (script_dir recordings_dir : string) (w : World)
    (segments : list Cli.Segment) (state : gmap string Cli.SegState) :
  let audio_segments :=
    (Cli.collect pjoin script_dir recordings_dir w state segments).1.1 in
  all_exist audio_segments w = (true, w)
  /\ Forall (fun seg =>
               type seg = "music"
               \/ (type seg = "voice" /\ crossfade seg = None))
       audio_segments.
Proof.
  intros audio_segments.
  pose proof (collect_segments_exist pjoin script_dir recordings_dir w
                segments state) as H.
  fold audio_segments in H. split.
  - apply injective_projections; [| apply all_exist_world].
    apply all_exist_true. intros seg Hin.
    rewrite Forall_forall in H. apply (H seg Hin).
  - eapply Forall_impl; [exact H |]. intros seg [_ Hk]. exact Hk.
Qed.

(** X14: the entries [_get_segment_state] creates on the way do not change
    the outcome: run again on the state the loop left behind, the loop
    collects the same segments and reports the same missing recordings;
    and the loop never changes the recorded flag or file name of any
    segment. *)
Theorem cmd_build_collect_stable (pjoin : string -> string -> string)
    (script_dir recordings_dir : string) (w : World)
    (segments : list Cli.Segment) (state : gmap string Cli.SegState) :
  let r := Cli.collect pjoin script_dir recordings_dir w state segments in
  let r' := Cli.collect pjoin script_dir recordings_dir w r.2 segments in
  r'.1 = r.1 /\ forall key, status_of r.2 key = status_of state key.
Proof.
  intros r r'.
  destruct (collect_respects_status pjoin script_dir recordings_dir w segments
              state state (fun _ => eq_refl)) as (_ & _ & Hs).
  fold r in Hs. split; [| exact Hs].
  destruct (collect_respects_status pjoin script_dir recordings_dir w segments
              r.2 state Hs) as (H1 & H2 & _).
  fold r r' in H1, H2. destruct r'.1, r.1. cbn [fst snd] in H1, H2.
  congruence.
Qed.

(** ** Further witnesses on the sample programme *)

(** Closes [~ own_path dir p] for a literal [p] outside [dir]. *)
Ltac outside_output :=
  let name := fresh in let E := fresh in
  intros (name & _ & E); unfold path_join in E; cbn in E; discriminate E.

(** X1, witness: a list naming a file that is not there. *)
Lemma build_rejects_bad_input_witness :
  build decimal_float report_loads ideal_tool default_builder
    [voice1; {| path := "jingle.wav"; type := "music"; crossfade := None |}]
    "test_output.mp3" true studio
  = (None, studio).
Proof.
  apply build_rejects_bad_input. right.
  exists {| path := "jingle.wav"; type := "music"; crossfade := None |}.
  split; [| vm_compute; reflexivity].
  apply elem_of_cons. right. apply elem_of_cons. left. reflexivity.
Defined.

(** X2, witness: the first clip survives a build that fails half way. *)
Lemma build_touches_own_paths_only_witness :
  fs (snd (build decimal_float report_loads
             (with_fault second_merge_fails ideal_tool) default_builder
             programme "test_output.mp3" true studio)) !! "test1.wav"
  = fs studio !! "test1.wav".
Proof.
  apply (build_touches_own_paths_only decimal_float report_loads
           (with_fault second_merge_fails ideal_tool) default_builder
           "test1.wav").
  - outside_output.
  - reflexivity.
  - reflexivity.
  - intros E. discriminate E.
Defined.

(** X3, witness: after the successful sample build the last merge artifact
    is gone. *)
Lemma build_success_clean_witness :
  fs (snd (build decimal_float report_loads ideal_tool default_builder
             programme "test_output.mp3" true studio))
  !! "output/_temp_1.wav" = None.
Proof.
  destruct (build_success_clean decimal_float report_loads ideal_tool
              default_builder programme "test_output.mp3" true studio
              (snd (build decimal_float report_loads ideal_tool
                      default_builder programme "test_output.mp3" true
                      studio))
              "output/test_output.mp3") as [_ H].
  - reflexivity.
  - reflexivity.
  - apply injective_projections; [vm_compute |]; reflexivity.
  - apply H. vm_compute. reflexivity.
Defined.

(** X4, witness: the sample programme built in gap mode to a wav file. *)
Lemma generic_build_success_has_output_witness :
  is_Some
    (fs (snd (build decimal_float report_loads ideal_tool gap_builder
                programme "test_output.wav" true studio))
     !! "output/test_output.wav").
Proof.
  apply (generic_build_success_has_output decimal_float report_loads
           ideal_tool gap_builder programme "test_output.wav" true studio).
  - reflexivity.
  - reflexivity.
  - reflexivity.
  - reflexivity.
  - apply injective_projections; [vm_compute |]; reflexivity.
Defined.

(** X5, witness: a zero override on the music bed gives a hard cut. *)
Lemma short_crossfade_is_hard_cut_witness :
  new_effects studio
    (snd (merge_step decimal_float ideal_tool default_builder voice1
            {| path := "test2.wav"; type := "music"; crossfade := Some 0 |}
            "test1.wav" 0 studio))
  = [Run (Ffprobe "test1.wav"); Run (Ffprobe "test2.wav");
     WriteList "output/_concat_list.txt" ["test1.wav"; "test2.wav"];
     Run (FfmpegConcat "output/_concat_list.txt" "output/_temp_0.wav")].
Proof.
  apply (short_crossfade_is_hard_cut decimal_float ideal_tool default_builder
           voice1
           {| path := "test2.wav"; type := "music"; crossfade := Some 0 |}
           "test1.wav" 0 studio probed1 probed2 3 2 eq_refl eq_refl eq_refl).
  reflexivity.
Defined.

(** X6, witness: 0.1 s between a 3 s and a 2 s clip is run as configured. *)
Lemma long_clips_keep_crossfade_witness :
  crossfades
    (new_effects studio
       (snd (merge_step decimal_float ideal_tool default_builder voice1 music2
               "test1.wav" 0 studio)))
  = [_get_crossfade_duration default_builder "voice" "music" None].
Proof.
  apply (long_clips_keep_crossfade decimal_float ideal_tool default_builder
           voice1 music2 "test1.wav" 0 studio probed1 probed2 3 2
           eq_refl eq_refl eq_refl);
    intros H; vm_compute in H; discriminate H.
Defined.

(** X7, witness: a policy with one entry does not fall back on the
    built-in table for the other pairs. *)
Lemma init_policy_witness :
  _get_crossfade_duration
    (Builder_init "output" (Some {["voice_to_music" := 1 # 2]}) (-16) None
       "192k")
    "music" "voice" None
  = 3 # 10
  /\ _get_crossfade_duration
       (Builder_init "output" (Some {["voice_to_music" := 1 # 2]}) (-16) None
          "192k")
       "voice" "music" None
     = 1 # 2.
Proof.
  destruct (init_policy "output" (-16) None "192k")
    as (_ & _ & _ & _ & Hhit & Hmiss).
  split.
  - apply Hmiss.
    + intros E. apply (f_equal (fun m => m !! "voice_to_music")) in E.
      vm_compute in E. discriminate E.
    + vm_compute. reflexivity.
  - apply Hhit. vm_compute. reflexivity.
Defined.


(** X10, witness: after merging the three sample clips, [_temp_0.wav] is
    gone. *)
Lemma merge_retires_intermediates_witness :
  fs (snd (merge_segments decimal_float ideal_tool default_builder voice1
             [music2; voice3] studio))
  !! "output/_temp_0.wav" = None.
Proof.
  destruct (merge_retires_intermediates decimal_float ideal_tool
              default_builder voice1 [music2; voice3] studio
              (snd (merge_segments decimal_float ideal_tool default_builder
                      voice1 [music2; voice3] studio))
              "output/_temp_1.wav") as [_ H].
  - discriminate.
  - apply injective_projections; [vm_compute |]; reflexivity.
  - apply (H 0%nat). cbn. lia.
Defined.


